(** * A logging reverse proxy in front of a chat-completion API

    Shallow embedding of [main.go]: the request interceptor
    ([handleProxy], [modifyRequestBody]), the two relays
    ([handleStreamRequest], [handleNonStreamRequest]) and the response
    writers they install ([streamResponseWriter], [responseBodyWriter]),
    with what [httputil.ReverseProxy] does around the round trip.

    Go strings and byte slices are both sequences of bytes; both are
    [string] here (a list of 8-bit [ascii]).  Go maps are [gmap]s, Go
    slices are lists, the logger is the list of the calls made to it, and
    the client connection is a record of what has been sent on it. *)

From Stdlib Require Import ZArith NArith Ascii String.
From stdpp Require Import gmap strings list fin_maps sorting pretty.

Set Warnings "-register-all".

(** ** Library functions the program calls *)

(** *** [unicode/utf8] *)
Module Utf8.

Definition byteval (c : ascii) : N := N_of_ascii c.

Definition between (lo hi : N) (c : ascii) : bool :=
  ((lo <=? byteval c) && (byteval c <=? hi))%N.

(** Size of the sequence announced by a leading byte and the range its
    second byte must lie in ([first] and [acceptRanges] of the package). *)
Definition lead (c : ascii) : option (nat * N * N) :=
  let b := byteval c in
  if (b <? 0xC2)%N then None
  else if (b <=? 0xDF)%N then Some (2, 0x80%N, 0xBF%N)
  else if (b =? 0xE0)%N then Some (3, 0xA0%N, 0xBF%N)
  else if (b =? 0xED)%N then Some (3, 0x80%N, 0x9F%N)
  else if (b <=? 0xEF)%N then Some (3, 0x80%N, 0xBF%N)
  else if (b =? 0xF0)%N then Some (4, 0x90%N, 0xBF%N)
  else if (b <=? 0xF3)%N then Some (4, 0x80%N, 0xBF%N)
  else if (b =? 0xF4)%N then Some (4, 0x80%N, 0x8F%N)
  else None.

(** Width returned by [utf8.DecodeRuneInString]: the length of the first
    UTF-8 sequence, 1 for a byte that starts no valid sequence, 0 for the
    empty string. *)
Definition runeWidth (s : string) : nat :=
  match s with
  | "" => 0
  | String c0 r0 =>
      match lead c0, r0 with
      | Some (size, lo, hi), String c1 r1 =>
          if negb (between lo hi c1) then 1
          else if (size =? 2)%nat then 2
          else match r1 with
               | String c2 r2 =>
                   if negb (between 0x80 0xBF c2) then 1
                   else if (size =? 3)%nat then 3
                   else match r2 with
                        | String c3 _ => if between 0x80 0xBF c3 then 4 else 1
                        | "" => 1
                        end
               | "" => 1
               end
      | _, _ => 1
      end
  end.

Definition bytes (l : list N) : string :=
  string_of_list_ascii (ascii_of_N <$> l).

(** The UTF-8 encodings of the code points [unicode.IsSpace] accepts:
    the six ASCII ones, U+0085, U+00A0, U+1680, U+2000..U+200A, U+2028,
    U+2029, U+202F, U+205F and U+3000. *)
Definition spaces : list string :=
  (bytes <$> [[0x09]; [0x0A]; [0x0B]; [0x0C]; [0x0D]; [0x20];
              [0xC2; 0x85]; [0xC2; 0xA0]; [0xE1; 0x9A; 0x80]]%N)
  ++ ((λ b, bytes [0xE2; 0x80; b]%N) <$>
        [0x80; 0x81; 0x82; 0x83; 0x84; 0x85; 0x86; 0x87; 0x88; 0x89; 0x8A;
         0xA8; 0xA9; 0xAF]%N)
  ++ (bytes <$> [[0xE2; 0x81; 0x9F]; [0xE3; 0x80; 0x80]]%N).

End Utf8.

(** *** [strings] and [bytes] *)
Module GoStrings.

Definition HasPrefix (s pre : string) : bool := String.prefix pre s.

Definition TrimPrefix (s pre : string) : string :=
  if HasPrefix s pre
  then substring (String.length pre) (String.length s - String.length pre) s
  else s.

Fixpoint Contains (s substr : string) : bool :=
  HasPrefix s substr
  || match s with
     | "" => false
     | String _ s' => Contains s' substr
     end.

(** [Replace] for a non-empty [old]: scan from the left; at a position
    where [old] starts, emit [new] and resume after the match ([skip]
    counts the bytes of the match still to be passed over). *)
Fixpoint replaceScan (old new : string) (skip : nat) (s : string) : string :=
  match s with
  | "" => ""
  | String c s' =>
      match skip with
      | S k => replaceScan old new k s'
      | O =>
          if HasPrefix s old
          then new +:+ replaceScan old new (String.length old - 1) s'
          else String c (replaceScan old new 0 s')
      end
  end.

(** [Replace] for the empty [old]: [new] goes in front of the string and
    after every UTF-8 sequence ([left] counts the bytes of the current
    sequence still to be copied, 0 at a sequence boundary). *)
Fixpoint replaceRunes (new : string) (left : nat) (s : string) : string :=
  match s with
  | "" => ""
  | String c s' =>
      let w := match left with O => Utf8.runeWidth s | S _ => left end in
      if (w <=? 1)%nat then String c (new +:+ replaceRunes new 0 s')
      else String c (replaceRunes new (w - 1) s')
  end.

Definition ReplaceAll (s old new : string) : string :=
  if String.eqb old new then s
  else match old with
       | "" => new +:+ replaceRunes new 0 s
       | _ => replaceScan old new 0 s
       end.

(** One pass of [TrimLeftFunc]: drop leading sequences that are in
    [encs]. *)
Fixpoint trimLeading (encs : list string) (skip : nat) (s : string) : string :=
  match s with
  | "" => ""
  | String c s' =>
      match skip with
      | S k => trimLeading encs k s'
      | O =>
          match List.find (HasPrefix s) encs with
          | Some e => trimLeading encs (String.length e - 1) s'
          | None => s
          end
      end
  end.

Definition TrimSpace (s : string) : string :=
  let l := trimLeading Utf8.spaces 0 s in
  String.rev (trimLeading (String.rev <$> Utf8.spaces) 0 (String.rev l)).

(** [Split] into UTF-8 sequences, for an empty separator. *)
Fixpoint explode (left : nat) (s : string) : list string :=
  match s with
  | "" => []
  | String c s' =>
      let w := match left with O => Utf8.runeWidth s | S _ => left end in
      if (w <=? 1)%nat then String c "" :: explode 0 s'
      else match explode (w - 1) s' with
           | h :: t => String c h :: t
           | [] => [String c ""]
           end
  end.

Fixpoint splitScan (sep : string) (skip : nat) (s : string) : list string :=
  match s with
  | "" => [""]
  | String c s' =>
      match skip with
      | S k => splitScan sep k s'
      | O =>
          if HasPrefix s sep then "" :: splitScan sep (String.length sep - 1) s'
          else match splitScan sep 0 s' with
               | h :: t => String c h :: t
               | [] => [String c ""]
               end
      end
  end.

Definition Split (s sep : string) : list string :=
  match sep with
  | "" => explode 0 s
  | _ => splitScan sep 0 s
  end.

(** JSON texts are written below with an apostrophe where the text has
    a quotation mark; [quoted] puts the quotation marks in. *)
Fixpoint quoted (s : string) : string :=
  match s with
  | "" => ""
  | String c s' =>
      String (if Ascii.eqb c "'" then "034" else c)%char (quoted s')
  end.

End GoStrings.

Import GoStrings.

(** *** Errors *)
Inductive error : Type :=
  | SyntaxError            (* encoding/json: the input is not JSON *)
  | UnmarshalTypeError     (* encoding/json: JSON of the wrong shape *)
  | UnsupportedValueError  (* encoding/json: a value with no encoding *)
  | ReadError              (* io: reading a body failed *)
  | ProtocolError.         (* httputil: an upgrade to an invalid protocol *)

Inductive result (A : Type) : Type :=
  | Ok (a : A)
  | Err (e : error).
Arguments Ok {A} a.
Arguments Err {A} e.

(** *** [encoding/json] *)
Module GoJSON.

(** What [Unmarshal] stores in an [interface{}]: nil, bool, float64,
    string, [[]interface{}] or [map[string]interface{}]. *)
Inductive value {float64 : Type} : Type :=
  | VNil
  | VBool (b : bool)
  | VFloat64 (f : float64)
  | VString (s : string)
  | VSlice (l : list value)
  | VMap (m : gmap string value).
Arguments value : clear implicits.

(** The package as the program uses it.  [decode] reads one JSON text
    into an [interface{}] ([None]: the text is not JSON); [encode] writes
    a value ([None]: it has no encoding). *)
Record codec (float64 : Type) : Type := {
  decode : string → option (value float64);
  encode : value float64 → option string
}.
Arguments decode {float64} c data.
Arguments encode {float64} c v.

(** A variable of type [map[string]interface{}]: [None] is the nil map. *)
Definition object (float64 : Type) : Type :=
  option (gmap string (value float64)).

(** [m[k]] on a possibly nil map. *)
Definition index {float64} (m : object float64) (k : string)
  : option (value float64) :=
  match m with
  | Some fields => fields !! k
  | None => None
  end.

(** [json.Unmarshal(data, &m)] for [var m map[string]interface{}]: a JSON
    object fills the map, [null] leaves it nil, any other JSON value is a
    type error. *)
Definition Unmarshal {float64} (json : codec float64) (data : string)
  : result (object float64) :=
  match decode json data with
  | None => Err SyntaxError
  | Some (VMap fields) => Ok (Some fields)
  | Some VNil => Ok None
  | Some _ => Err UnmarshalTypeError
  end.

(** [json.Marshal(m)] for [m map[string]interface{}]. *)
Definition Marshal {float64} (json : codec float64) (m : object float64)
  : result string :=
  match encode json (from_option VMap VNil m) with
  | Some data => Ok data
  | None => Err UnsupportedValueError
  end.

End GoJSON.

Import GoJSON.

(** *** A reference codec *)

(** An executable [encoding/json] (as of Go 1.20, the toolchain of the
    Dockerfile) for evaluating the program on concrete bodies.  It covers
    JSON in full except for numbers: [float64] is [Z], and a number is
    read only when its literal is a plain integer of magnitude at most
    2^53, which float64 holds exactly and prints back in the same digits
    (the literal [-0] is left out: it reads as the negative zero).  Other
    number literals are outside the fragment and are refused. *)
Module JsonFragment.

Definition byte (n : N) : ascii := ascii_of_N n.

Definition isSpace (c : ascii) : bool :=
  let b := Utf8.byteval c in
  ((b =? 0x20) || (b =? 0x09) || (b =? 0x0A) || (b =? 0x0D))%N.

Fixpoint skipSpace (s : string) : string :=
  match s with
  | String c s' => if isSpace c then skipSpace s' else s
  | "" => ""
  end.

Fixpoint drop (n : nat) (s : string) : string :=
  match n, s with
  | S n', String _ s' => drop n' s'
  | _, _ => s
  end.

Definition take (n : nat) (s : string) : string := substring 0 n s.

(** [utf8.EncodeRune] *)
Definition encodeRune (r : N) : string :=
  (if r <=? 0x7F then Utf8.bytes [r]
   else if r <=? 0x7FF then
     Utf8.bytes [0xC0 + r / 64; 0x80 + r mod 64]
   else if ((0xD800 <=? r) && (r <=? 0xDFFF)) || (0x10FFFF <? r) then
     Utf8.bytes [0xEF; 0xBF; 0xBD]
   else if r <=? 0xFFFF then
     Utf8.bytes [0xE0 + r / 4096; 0x80 + (r / 64) mod 64; 0x80 + r mod 64]
   else
     Utf8.bytes [0xF0 + r / 262144; 0x80 + (r / 4096) mod 64;
                 0x80 + (r / 64) mod 64; 0x80 + r mod 64])%N.

Definition replacementChar : N := 0xFFFD.

Definition hexDigit (c : ascii) : option N :=
  let b := Utf8.byteval c in
  (if (0x30 <=? b) && (b <=? 0x39) then Some (b - 0x30)
   else if (0x61 <=? b) && (b <=? 0x66) then Some (b - 0x61 + 10)
   else if (0x41 <=? b) && (b <=? 0x46) then Some (b - 0x41 + 10)
   else None)%N.

(** [getu4]: the code unit of a leading [\uXXXX]. *)
Definition getu4 (s : string) : option N :=
  match s with
  | String "\" (String "u" (String a (String b (String c (String d _))))) =>
      match hexDigit a, hexDigit b, hexDigit c, hexDigit d with
      | Some x, Some y, Some z, Some t =>
          Some (x * 4096 + y * 256 + z * 16 + t)%N
      | _, _, _, _ => None
      end
  | _ => None
  end.

Definition isSurrogate (r : N) : bool := ((0xD800 <=? r) && (r <? 0xE000))%N.

(** [utf16.DecodeRune] *)
Definition decodeSurrogates (r1 : N) (r2 : option N) : N :=
  match r2 with
  | Some r2 =>
      (if (0xD800 <=? r1) && (r1 <? 0xDC00) && (0xDC00 <=? r2) && (r2 <? 0xE000)
       then (r1 - 0xD800) * 1024 + (r2 - 0xDC00) + 0x10000
       else replacementChar)%N
  | None => replacementChar
  end.

Definition simpleEscape (c : ascii) : option ascii :=
  (if Ascii.eqb c "034" then Some "034"
   else if Ascii.eqb c "\" then Some "\"
   else if Ascii.eqb c "/" then Some "/"
   else if Ascii.eqb c "b" then Some "008"
   else if Ascii.eqb c "f" then Some "012"
   else if Ascii.eqb c "n" then Some "010"
   else if Ascii.eqb c "r" then Some "013"
   else if Ascii.eqb c "t" then Some "009"
   else None)%char.

(** The inside of a string literal, after its opening quotation mark:
    the string it denotes and the text after the closing mark. *)
Fixpoint unquote (fuel : nat) (s : string) : option (string * string) :=
  match fuel, s with
  | S fuel', String c r =>
      if Ascii.eqb c "034" then Some ("", r)
      else if Ascii.eqb c "\" then
        match r with
        | String "u" _ =>
            match getu4 s with
            | Some rr =>
                let r := drop 6 s in
                if isSurrogate rr then
                  let dec := decodeSurrogates rr (getu4 r) in
                  if (dec =? replacementChar)%N
                  then prod_map (String.app (encodeRune replacementChar)) id
                         <$> unquote fuel' r
                  else prod_map (String.app (encodeRune dec)) id
                         <$> unquote fuel' (drop 6 r)
                else prod_map (String.app (encodeRune rr)) id
                       <$> unquote fuel' r
            | None => None
            end
        | String e r' =>
            match simpleEscape e with
            | Some b => prod_map (String b) id <$> unquote fuel' r'
            | None => None
            end
        | "" => None
        end
      else if (Utf8.byteval c <? 0x20)%N then None
      else if (Utf8.byteval c <? 0x80)%N then
        prod_map (String c) id <$> unquote fuel' r
      else
        let w := Utf8.runeWidth s in
        if (w <=? 1)%nat
        then prod_map (String.app (encodeRune replacementChar)) id
               <$> unquote fuel' r
        else prod_map (String.app (take w s)) id <$> unquote fuel' (drop w s)
  | _, _ => None
  end.

Definition isDigit (c : ascii) : bool :=
  ((0x30 <=? Utf8.byteval c) && (Utf8.byteval c <=? 0x39))%N.

Fixpoint digits (acc : Z) (s : string) : Z * string :=
  match s with
  | String c s' =>
      if isDigit c
      then digits (10 * acc + Z.of_N (Utf8.byteval c - 0x30)) s'
      else (acc, s)
  | "" => (acc, s)
  end.

Definition maxExact : Z := 2 ^ 53.

(** A number literal of the fragment at the head of [s]. *)
Definition number (s : string) : option (Z * string) :=
  let (neg, s1) := match s with
                   | String "-" s' => (true, s')
                   | _ => (false, s)
                   end in
  match s1 with
  | String c s2 =>
      if isDigit c then
        let (n, rest) :=
          if Ascii.eqb c "0" then (0%Z, s2) else digits 0 s1 in
        match rest with
        | String d _ =>
            if isDigit d || Ascii.eqb d "." || Ascii.eqb d "e"
               || Ascii.eqb d "E"
            then None
            else if (maxExact <? n)%Z || (neg && (n =? 0)%Z) then None
            else Some (if neg then (- n)%Z else n, rest)
        | "" =>
            if (maxExact <? n)%Z || (neg && (n =? 0)%Z) then None
            else Some (if neg then (- n)%Z else n, rest)
        end
      else None
  | "" => None
  end.

Definition literal (word : string) (v : value Z) (s : string)
    : option (value Z * string) :=
  if String.prefix word s then Some (v, drop (String.length word) s) else None.

(** One JSON value at the head of [s] (after white space), the elements
    of an array after its first, and the members of an object; later
    members replace earlier ones of the same name. *)
Fixpoint parseValue (fuel : nat) (s : string) : option (value Z * string) :=
  match fuel with
  | O => None
  | S fuel' =>
      match skipSpace s with
      | String "{" r =>
          match skipSpace r with
          | String "}" r' => Some (VMap ∅, r')
          | r' => parseMembers fuel' ∅ r'
          end
      | String "[" r =>
          match skipSpace r with
          | String "]" r' => Some (VSlice [], r')
          | r' =>
              match parseValue fuel' r' with
              | Some (v, r'') => parseElements fuel' [v] r''
              | None => None
              end
          end
      | String "034" r => prod_map VString id <$> unquote fuel' r
      | String "t" _ as s' => literal "true" (VBool true) s'
      | String "f" _ as s' => literal "false" (VBool false) s'
      | String "n" _ as s' => literal "null" VNil s'
      | s' => prod_map VFloat64 id <$> number s'
      end
  end
with parseElements (fuel : nat) (acc : list (value Z)) (s : string)
    : option (value Z * string) :=
  match fuel with
  | O => None
  | S fuel' =>
      match skipSpace s with
      | String "]" r => Some (VSlice acc, r)
      | String "," r =>
          match parseValue fuel' r with
          | Some (v, r') => parseElements fuel' (acc ++ [v]) r'
          | None => None
          end
      | _ => None
      end
  end
with parseMembers (fuel : nat) (acc : gmap string (value Z)) (s : string)
    : option (value Z * string) :=
  match fuel with
  | O => None
  | S fuel' =>
      match skipSpace s with
      | String "034" r =>
          match unquote fuel' r with
          | Some (key, r1) =>
              match skipSpace r1 with
              | String ":" r2 =>
                  match parseValue fuel' r2 with
                  | Some (v, r3) =>
                      let acc := <[key := v]> acc in
                      match skipSpace r3 with
                      | String "}" r4 => Some (VMap acc, r4)
                      | String "," r4 => parseMembers fuel' acc r4
                      | _ => None
                      end
                  | None => None
                  end
              | _ => None
              end
          | None => None
          end
      | _ => None
      end
  end.

Definition decode (data : string) : option (value Z) :=
  match parseValue (S (String.length data)) data with
  | Some (v, rest) =>
      match skipSpace rest with
      | "" => Some v
      | _ => None
      end
  | None => None
  end.

Definition hex (n : N) : ascii :=
  (if n <? 10 then byte (0x30 + n) else byte (0x61 + n - 10))%N.

(** Bytes the encoder copies as they are (its [htmlSafeSet]). *)
Definition htmlSafe (c : ascii) : bool :=
  let b := Utf8.byteval c in
  (negb (b <? 0x20) && negb (b =? 0x22) && negb (b =? 0x26)
   && negb (b =? 0x3C) && negb (b =? 0x3E) && negb (b =? 0x5C))%N.

Definition escapeByte (c : ascii) : string :=
  if Ascii.eqb c "034" then String "\" (String "034" "")
  else if Ascii.eqb c "\" then "\\"
  else if Ascii.eqb c "010" then "\n"
  else if Ascii.eqb c "013" then "\r"
  else if Ascii.eqb c "009" then "\t"
  else "\u00" +:+ String (hex (Utf8.byteval c / 16))
                    (String (hex (Utf8.byteval c mod 16)) "").

(** The inside of the literal the encoder writes for [s]. *)
Fixpoint escape (fuel : nat) (s : string) : string :=
  match fuel, s with
  | S fuel', String c r =>
      if (Utf8.byteval c <? 0x80)%N then
        (if htmlSafe c then String c "" else escapeByte c) +:+ escape fuel' r
      else
        let w := Utf8.runeWidth s in
        if (w <=? 1)%nat then "\ufffd" +:+ escape fuel' r
        else if String.eqb (take w s) (Utf8.bytes [0xE2; 0x80; 0xA8]%N)
        then "\u2028" +:+ escape fuel' (drop w s)
        else if String.eqb (take w s) (Utf8.bytes [0xE2; 0x80; 0xA9]%N)
        then "\u2029" +:+ escape fuel' (drop w s)
        else take w s +:+ escape fuel' (drop w s)
  | _, _ => ""
  end.

Definition quote (s : string) : string :=
  String "034" (escape (String.length s) s) +:+ String "034" "".

Definition keyLe (a b : string * option string) : Prop := String.le a.1 b.1.

#[export] Instance keyLe_dec : RelDecision keyLe.
Proof. intros a b. unfold keyLe. apply _. Defined.

Definition member (kv : string * option string) : option string :=
  (λ v, quote kv.1 +:+ ":" +:+ v) <$> kv.2.

(** The encoder: object members go out sorted by name. *)
Fixpoint encode (v : value Z) : option string :=
  match v with
  | VNil => Some "null"
  | VBool b => Some (if b then "true" else "false")
  | VFloat64 n =>
      if (Z.abs n <=? maxExact)%Z then Some (pretty n) else None
  | VString s => Some (quote s)
  | VSlice l =>
      (λ parts, "[" +:+ String.concat "," parts +:+ "]") <$> mapM encode l
  | VMap m =>
      (λ parts, "{" +:+ String.concat "," parts +:+ "}")
        <$> mapM member (merge_sort keyLe (map_to_list (encode <$> m)))
  end.

Definition json : codec Z :=
  {| GoJSON.decode := decode; GoJSON.encode := encode |}.

End JsonFragment.

(** *** [net/http] *)
Module GoHTTP.

(** [http.Header], keyed by canonical header names. *)
Abbreviation Header := (gmap string (list string)).

Definition Get (h : Header) (key : string) : string :=
  match h !! key with
  | Some (v :: _) => v
  | _ => ""
  end.

Definition Set_ (h : Header) (key v : string) : Header := <[key := [v]]> h.

Definition Add (h : Header) (key v : string) : Header :=
  <[key := default [] (h !! key) ++ [v]]> h.

Definition Del (h : Header) (key : string) : Header := delete key h.

(** [copyHeader(dst, src)] of [httputil]: every value of [src] is added
    to [dst]. *)
Definition copyHeader (dst src : Header) : Header :=
  union_with (λ d s, Some (d ++ s)) dst src.

(** An inbound or outbound request.  [Body] is [None] for a nil body;
    otherwise it is what [io.ReadAll] returns on it. *)
Record Request : Type := {
  Method : string;
  Path : string;
  Host : string;
  ReqHeader : Header;
  Body : option (result string);
  ContentLength : Z
}.

(** An upstream response: [RespBody] lists the chunks successive reads
    return (a read that returns no byte is not listed: the copy does
    nothing with it), [RespBodyErr] whether the last read fails instead of
    reaching the end. *)
Record Response : Type := {
  StatusCode : Z;
  RespHeader : Header;
  RespBody : list string;
  RespBodyErr : option error
}.

Definition StatusOK : Z := 200.
Definition StatusBadGateway : Z := 502.
Definition StatusInternalServerError : Z := 500.

End GoHTTP.

Import GoHTTP.

(** *** [net/http/httputil] around the round trip

    What [ReverseProxy.ServeHTTP] of Go 1.20 (the version the Dockerfile
    builds with) does to the outbound request between the return of the
    Director and the round trip, and to the response before
    [ModifyResponse] sees it, with the functions of [net/textproto] and
    [golang.org/x/net/http/httpguts] it calls for that. *)
Module Httputil.

Fixpoint allBytes (f : ascii → bool) (s : string) : bool :=
  match s with
  | "" => true
  | String c s' => f c && allBytes f s'
  end.

(** The bytes of a header field name: the [tchar] of RFC 7230. *)
Definition validHeaderFieldByte (c : ascii) : bool :=
  let b := Utf8.byteval c in
  (((0x30 <=? b) && (b <=? 0x39))
   || ((0x41 <=? b) && (b <=? 0x5A))
   || ((0x61 <=? b) && (b <=? 0x7A))
   || existsb (N.eqb b)
        [0x21; 0x23; 0x24; 0x25; 0x26; 0x27; 0x2A; 0x2B; 0x2D; 0x2E; 0x5E;
         0x5F; 0x60; 0x7C; 0x7E])%N.

Definition isLower (c : ascii) : bool := Utf8.between 0x61 0x7A c.
Definition isUpper (c : ascii) : bool := Utf8.between 0x41 0x5A c.

(** ['a' - 'A'] *)
Definition toLower : N := 0x20.

(** The second loop of [canonicalMIMEHeaderKey]: upper case for the first
    letter and for a letter after a dash, lower case for the others. *)
Fixpoint canonicalCase (upper : bool) (a : string) : string :=
  match a with
  | "" => ""
  | String c a' =>
      let c :=
        if upper && isLower c then ascii_of_N (Utf8.byteval c - toLower)
        else if negb upper && isUpper c
             then ascii_of_N (Utf8.byteval c + toLower)
             else c in
      String c (canonicalCase (Ascii.eqb c "-") a')
  end.

(** [textproto.CanonicalMIMEHeaderKey]: a key with a byte that no field
    name has is returned as it is. *)
Definition CanonicalMIMEHeaderKey (s : string) : string :=
  if allBytes validHeaderFieldByte s then canonicalCase true s else s.

(** [Header.Del] on a key of any spelling ([GoHTTP.Del] is for the keys
    the program writes out, which are canonical). *)
Definition DelKey (h : Header) (key : string) : Header :=
  Del h (CanonicalMIMEHeaderKey key).

Fixpoint trimLeft (f : ascii → bool) (s : string) : string :=
  match s with
  | "" => ""
  | String c s' => if f c then trimLeft f s' else s
  end.

Definition trim (f : ascii → bool) (s : string) : string :=
  String.rev (trimLeft f (String.rev (trimLeft f s))).

(** [textproto.TrimString]: space, tab, line feed and carriage return. *)
Definition isASCIISpace (c : ascii) : bool :=
  let b := Utf8.byteval c in
  ((b =? 0x20) || (b =? 0x09) || (b =? 0x0A) || (b =? 0x0D))%N.

Definition TrimString (s : string) : string := trim isASCIISpace s.

Definition hopHeaders : list string :=
  ["Connection"; "Proxy-Connection"; "Keep-Alive"; "Proxy-Authenticate";
   "Proxy-Authorization"; "Te"; "Trailer"; "Transfer-Encoding"; "Upgrade"].

(** [removeHopByHopHeaders]: the headers the values of [Connection] name,
    then the fixed list. *)
Definition removeHopByHopHeaders (h : Header) : Header :=
  let named :=
    foldl (λ h f,
             foldl (λ h sf,
                      let sf := TrimString sf in
                      if String.eqb sf "" then h else DelKey h sf)
               h (Split f ","))
      h (default [] (h !! "Connection")) in
  foldl Del named hopHeaders.

(** [httpguts.HeaderValuesContainsToken] *)
Definition lowerASCII (c : ascii) : ascii :=
  if isUpper c then ascii_of_N (Utf8.byteval c + toLower) else c.

Fixpoint tokenEqual (t1 t2 : string) : bool :=
  match t1, t2 with
  | "", "" => true
  | String a t1', String b t2' =>
      (Utf8.byteval a <? 0x80)%N
      && Ascii.eqb (lowerASCII a) (lowerASCII b)
      && tokenEqual t1' t2'
  | _, _ => false
  end.

Definition isOWS (c : ascii) : bool :=
  let b := Utf8.byteval c in ((b =? 0x20) || (b =? 0x09))%N.

Definition headerValueContainsToken (v token : string) : bool :=
  existsb (λ piece, tokenEqual (trim isOWS piece) token) (Split v ",").

Definition HeaderValuesContainsToken (values : list string) (token : string)
    : bool :=
  existsb (λ v, headerValueContainsToken v token) values.

Definition upgradeType (h : Header) : string :=
  if HeaderValuesContainsToken (default [] (h !! "Connection")) "Upgrade"
  then Get h "Upgrade"
  else "".

(** [ascii.IsPrint] *)
Definition IsPrint (s : string) : bool :=
  allBytes (Utf8.between 0x20 0x7E) s.

(** The outbound request as the transport receives it.  [req] is the
    request [ServeHTTP] was called with, [outreq] its copy as the Director
    left it, [clientIP] the host of [req.RemoteAddr] when that parses.
    The result is [None] when the request asks for an upgrade to a
    protocol with an unprintable name: the error handler is called and no
    request goes out.  The body of a request with no content is dropped
    (on the copy, before a Director that leaves the body alone, as the
    default one does, gets it).  A header key present with no value is
    the nil slice by which a Director asks that [X-Forwarded-For] be left
    out. *)
Definition outbound (clientIP : option string) (req outreq : Request)
    : option Request :=
  let reqUpType := upgradeType (ReqHeader outreq) in
  if negb (IsPrint reqUpType) then None
  else
    let h := removeHopByHopHeaders (ReqHeader outreq) in
    let h :=
      if HeaderValuesContainsToken (default [] (ReqHeader req !! "Te"))
           "trailers"
      then Set_ h "Te" "trailers" else h in
    let h :=
      if negb (String.eqb reqUpType "")
      then Set_ (Set_ h "Connection" "Upgrade") "Upgrade" reqUpType
      else h in
    let h :=
      match clientIP with
      | Some clientIP =>
          match h !! "X-Forwarded-For" with
          | Some [] => h
          | Some prior =>
              Set_ h "X-Forwarded-For"
                (String.concat ", " prior +:+ ", " +:+ clientIP)
          | None => Set_ h "X-Forwarded-For" clientIP
          end
      | None => h
      end in
    let h :=
      match h !! "User-Agent" with
      | Some _ => h
      | None => Set_ h "User-Agent" ""
      end in
    Some {| Method := Method outreq; Path := Path outreq;
            Host := Host outreq; ReqHeader := h;
            Body := if (ContentLength req =? 0)%Z then None
                    else Body outreq;
            ContentLength := ContentLength outreq |}.

(** The round trip as [ServeHTTP] makes it once the Director has
    returned: the outbound request is finished, the transport is asked,
    and the hop-by-hop headers of the answer are removed.  A request that
    cannot go out fails like a round trip that fails: both end in the
    error handler.  (An answer 101, which hands the connection over to
    the two ends, is not covered.) *)
Definition sendUpstream (clientIP : option string)
    (transport : Request → result Response) (req outreq : Request)
    : result Response :=
  match outbound clientIP req outreq with
  | None => Err ProtocolError
  | Some sent =>
      match transport sent with
      | Err err => Err err
      | Ok res =>
          Ok {| StatusCode := StatusCode res;
                RespHeader := removeHopByHopHeaders (RespHeader res);
                RespBody := RespBody res;
                RespBodyErr := RespBodyErr res |}
      end
  end.

End Httputil.

(** ** The state the handlers act on *)

(** One constructor for each [logger.Printf] call of [main.go] (the line
    of the call is given), carrying the values the call formats. *)
Inductive logEntry : Type :=
  | LogReceived (method path : string)          (* line 76 *)
  | LogRequestHeader (h : Header)               (* line 77 *)
  | LogReadBodyError (e : error)                (* line 109 *)
  | LogRequest (method path body : string)      (* line 119 *)
  | LogStreamDone                               (* line 170 *)
  | LogStreamParseError (e : error)             (* line 176 *)
  | LogStreamChunk (payload : string)           (* line 179 *)
  | LogRequestParseError (e : error)            (* line 204 *)
  | LogOriginalPrompt (content : string)        (* line 213 *)
  | LogModifiedPrompt (content : string)        (* line 223 *)
  | LogMarshalError (e : error)                 (* line 236 *)
  | LogStreamResponseStart (status : Z)         (* line 250 *)
  | LogReadResponseError (e : error)            (* line 256 *)
  | LogResponse (status : Z) (body : string)    (* lines 261 and 274 *)
  | LogAIReply (content : string)               (* line 284 *)
  | LogReplyParseError (e : error).             (* line 290 *)

(** The client side of the connection, as gin's response writer
    ([c.Writer]) keeps it: the header map, the status to send, the status
    line and header once they have gone out ([None] before), and the data
    of every [Write] made so far, in order. *)
Record client : Type := {
  header : Header;
  status : Z;
  head : option (Z * Header);
  written : list string
}.

Record World : Type := {
  logger : list logEntry;
  writer : client
}.

(** Stateful code is a function of the world. *)
Definition M (A : Type) : Type := World → A * World.

Definition ret {A} (a : A) : M A := λ w, (a, w).

Definition bind {A B} (c : M A) (k : A → M B) : M B :=
  λ w, let (a, w') := c w in k a w'.

Notation "x <- c ;; k" := (bind c (λ x, k))
  (at level 100, c at next level, right associativity).
Notation "c ;; k" := (bind c (λ _, k))
  (at level 100, right associativity).

Definition Printf (e : logEntry) : M unit :=
  λ w, (tt, {| logger := logger w ++ [e]; writer := writer w |}).

Definition onWriter (f : client → client) : M unit :=
  λ w, (tt, {| logger := logger w; writer := f (writer w) |}).

Definition getWriter : M client := λ w, (writer w, w).

(** *** gin's response writer and context *)
Module Gin.

Definition Written (w : client) : bool := bool_decide (is_Some (head w)).

(** [responseWriter.WriteHeader]: records the status unless the head has
    already been written. *)
Definition WriteHeader (code : Z) (w : client) : client :=
  if (0 <? code)%Z && negb (status w =? code)%Z && negb (Written w)
  then {| header := header w; status := code;
          head := head w; written := written w |}
  else w.

Definition WriteHeaderNow (w : client) : client :=
  if Written w then w
  else {| header := header w; status := status w;
          head := Some (status w, header w); written := written w |}.

Definition Write (data : string) (w : client) : client :=
  let w := WriteHeaderNow w in
  {| header := header w; status := status w;
     head := head w; written := written w ++ [data] |}.

Definition withHeader (f : Header → Header) (w : client) : client :=
  {| header := f (header w); status := status w;
     head := head w; written := written w |}.

(** [c.Header(key, value)] *)
Definition Header_ (key v : string) : M unit :=
  onWriter (withHeader (λ h, if String.eqb v "" then Del h key
                             else Set_ h key v)).

(** [c.Status(code)] *)
Definition Status (code : Z) : M unit := onWriter (WriteHeader code).

Definition bodyAllowedForStatus (code : Z) : bool :=
  negb (((100 <=? code) && (code <=? 199)) || (code =? 204) || (code =? 304))%Z.

Definition writeContentType (v : string) (h : Header) : Header :=
  match h !! "Content-Type" with
  | Some (_ :: _) => h
  | _ => <["Content-Type" := [v]]> h
  end.

(** [c.Data(code, contentType, data)] and, with the rendered bytes for
    [data], [c.JSON(code, obj)]. *)
Definition Data (code : Z) (contentType data : string) : M unit :=
  Status code ;;
  onWriter (withHeader (writeContentType contentType)) ;;
  if bodyAllowedForStatus code then onWriter (Write data)
  else onWriter WriteHeaderNow.

End Gin.

(** *** [http.ResponseWriter] *)

(** The interface's [Write] and [WriteHeader]; every implementation below
    embeds gin's writer, so [Header()] is always the client's header map. *)
Class ResponseWriter (W : Type) : Type := {
  Write : string → W → M W;
  WriteHeader : Z → W → M W
}.

#[export] Instance ginResponseWriter : ResponseWriter unit := {|
  Write data rw := onWriter (Gin.Write data) ;; ret rw;
  WriteHeader code rw := onWriter (Gin.WriteHeader code) ;; ret rw
|}.

(** *** [httputil.ReverseProxy] *)
Record ReverseProxy : Type := {
  Director : Request → Request;
  ModifyResponse : Response → M (result Response)
}.

(** The reads a 32 KiB copy buffer makes on a [bytes.Buffer] holding
    [data]: full buffers, then the rest; none on empty data. *)
Fixpoint bufferReads (size room : nat) (data : string) : list string :=
  match data with
  | "" => []
  | String c data' =>
      if (room <=? 1)%nat then String c "" :: bufferReads size size data'
      else match bufferReads size (room - 1) data' with
           | h :: t => String c h :: t
           | [] => [String c ""]
           end
  end.

Definition copyBufferSize : nat := 32 * 1024.

Fixpoint copyBuffer `{ResponseWriter W} (rw : W) (reads : list string) : M W :=
  match reads with
  | [] => ret rw
  | chunk :: reads' => rw' <- Write chunk rw ;; copyBuffer rw' reads'
  end.

(** ** The program *)

(** The global [config], read from [config.json] by [init]. *)
Record Config : Type := {
  OpenAIAPIURL : string;
  OpenAIAPIKey : string;
  PromptModifications : gmap string string
}.

(** Go fixes no order for [range] over a map.  [rangeOrder i table] is
    the order in which the loop of line 217 meets the entries of [table]
    while the [i]-th message is rewritten; whatever the order, every entry
    is met once. *)
Definition RangeOrder
    (rangeOrder : nat → gmap string string → list (string * string)) : Prop :=
  ∀ i table, rangeOrder i table ≡ₚ map_to_list table.

(** The branch [handleProxy] leaves by (the Go function returns nothing). *)
Inductive dispatch : Type :=
  | BodyUnreadable    (* line 111: 500 and return *)
  | Preflight         (* line 125: OPTIONS, 200 and return *)
  | StreamRelay       (* line 132: handleStreamRequest *)
  | BufferedRelay.    (* line 134: handleNonStreamRequest *)

Inductive streamResponseWriter : Type := StreamResponseWriter.

Record responseBodyWriter : Type := {
  body : string;
  statusCode : Z
}.

(** ** Sample inputs *)

(** A fresh connection and an empty log. *)
Definition world0 : World :=
  {| logger := [];
     writer := {| header := ∅; status := StatusOK; head := None;
                  written := [] |} |}.

(** Two enumerations of a map: by [map_to_list] and in the reverse order. *)
Definition ascending (_ : nat) (table : gmap string string)
    : list (string * string) :=
  map_to_list table.

Definition descending (_ : nat) (table : gmap string string)
    : list (string * string) :=
  reverse (map_to_list table).

(** The table of the README's kind, and one whose first replacement
    produces the second keyword. *)
Definition configBadword : Config :=
  {| OpenAIAPIURL := "https://api.openai.com";
     OpenAIAPIKey := "sk-default";
     PromptModifications := {["BADWORD" := "nice"]} |}.

Definition configChain : Config :=
  {| OpenAIAPIURL := "https://api.openai.com";
     OpenAIAPIKey := "sk-default";
     PromptModifications := {["a" := "b"; "b" := "c"]} |}.

Definition request0 (method path : string) (h : Header)
    (data : option (result string)) : Request :=
  {| Method := method; Path := path; Host := "localhost:8080";
     ReqHeader := h; Body := data; ContentLength := 0 |}.

(** An upstream that answers every request with [res]. *)
Definition answering (res : Response) (_ : Request) : result Response :=
  Ok res.

Definition jsonResponse (data : string) : Response :=
  {| StatusCode := StatusOK;
     RespHeader := {["Content-Type" := ["application/json"]]};
     RespBody := [data];
     RespBodyErr := None |}.

Definition bodyHello : string :=
  quoted "{'messages':[{'role':'user','content':'hello'}]}".

Definition bodyChain : string := quoted "{'messages':[{'content':'a'}]}".

Definition bodyPrompt : string := quoted "{'prompt': 'hi'}".

Definition bodyReply : string :=
  quoted "{'choices':[{'message':{'role':'assistant','content':'hi'}}]}".

Definition messageBadword : gmap string (value Z) :=
  {["role" := VString "user"; "content" := VString "hello BADWORD"]}.

Definition fieldsBadword : gmap string (value Z) :=
  {["model" := VString "gpt-4"; "messages" := VSlice [VMap messageBadword]]}.

(** An upstream that cannot be reached. *)
Definition unreachable (_ : Request) : result Response := Err ReadError.

Definition eventStream (code : Z) (chunks : list string) : Response :=
  {| StatusCode := code;
     RespHeader := {["Content-Type" := ["text/event-stream"]]};
     RespBody := chunks;
     RespBodyErr := None |}.

(** The three headers [logResponse] removes. *)
Definition corsHeaders : list string :=
  ["Access-Control-Allow-Origin"; "Access-Control-Allow-Methods";
   "Access-Control-Allow-Headers"].

(** A JSON answer that also carries a cross-origin header. *)
Definition corsResponse : Response :=
  {| StatusCode := StatusOK;
     RespHeader := {["Access-Control-Allow-Origin" := ["*"];
                     "Content-Type" := ["application/json"]]};
     RespBody := [bodyReply];
     RespBodyErr := None |}.

(** An upstream that answers [res] to requests for [host] and cannot be
    reached for any other. *)
Definition answeringHost (host : string) (res : Response) (r : Request)
    : result Response :=
  if String.eqb (Host r) host then Ok res else Err ReadError.

Definition chatRequest : Request :=
  request0 "POST" "/v1/chat/completions" ∅ (Some (Ok bodyHello)).

Definition streamRequest : Request :=
  request0 "POST" "/v1/stream" ∅ (Some (Ok bodyHello)).

(** A JSON answer whose body cannot be read to the end. *)
Definition brokenResponse : Response :=
  {| StatusCode := StatusOK;
     RespHeader := {["Content-Type" := ["application/json"]]};
     RespBody := ["{"];
     RespBodyErr := Some ReadError |}.

(** An upstream that wants a key: it answers 401 to a request without an
    [Authorization] value. *)
Definition unauthorized : Response :=
  {| StatusCode := 401;
     RespHeader := {["Content-Type" := ["application/json"]]};
     RespBody := [quoted "{'error':'no key'}"];
     RespBodyErr := None |}.

Definition requiringKey (r : Request) : result Response :=
  if String.eqb (Get (ReqHeader r) "Authorization") "" then Ok unauthorized
  else Ok (jsonResponse bodyReply).

(** A request that names [Authorization] in its [Connection] header and
    brings no key, and one that does the same and brings its own key. *)
Definition keylessRequest : Request :=
  request0 "POST" "/v1/chat/completions"
    {["Connection" := ["Authorization"]]} (Some (Ok bodyHello)).

Definition keyedRequest : Request :=
  request0 "POST" "/v1/chat/completions"
    {["Connection" := ["Authorization"];
      "Authorization" := ["Bearer sk-user"]]} (Some (Ok bodyHello)).

(** A value is none of the values listed (it differs from each by its
    constructor or a literal). *)
Ltac not_listed :=
  let Hin := fresh "Hin" in
  intros Hin;
  repeat (apply elem_of_cons in Hin as [Hin | Hin]; [discriminate Hin |]);
  by apply elem_of_nil in Hin.

Section Proxy.

Context {float64 : Type}.
(** [encoding/json]. *)
Variable json : codec float64.
(** The globals set by [init]: [config] and the host of [openAIURL]. *)
Variable config : Config.
Variable openAIURL_Host : string.
(** The director [NewSingleHostReverseProxy] installs. *)
Variable director : Request → Request.
(** The round trip as [ServeHTTP] makes it, from the return of the
    Director to the response [ModifyResponse] is given:
    [Httputil.sendUpstream] over a transport. *)
Variable RoundTrip : Request → result Response.
(** The orders the runtime picks for the map. *)
Variable rangeOrder : nat → gmap string string → list (string * string).

(** [ReverseProxy.ServeHTTP]: direct the request, make the round trip,
    let [ModifyResponse] see the response, then copy header, status and
    body to [rw]; a failed round trip or [ModifyResponse] answers 502.
    What the library does to the request after the Director and to the
    response before [ModifyResponse] is part of [RoundTrip].  A body whose
    last read fails is copied up to the failure; that the library then
    gives the handler up (it panics with [ErrAbortHandler]) is left out,
    and a handler here runs on. *)
Definition ServeHTTP `{ResponseWriter W} (proxy : ReverseProxy) (rw : W)
    (req : Request) : M W :=
  match RoundTrip (Director proxy req) with
  | Err _ => WriteHeader StatusBadGateway rw
  | Ok res =>
      r <- ModifyResponse proxy res ;;
      match r with
      | Err _ => WriteHeader StatusBadGateway rw
      | Ok res' =>
          onWriter (Gin.withHeader (λ h, copyHeader h (RespHeader res'))) ;;
          rw' <- WriteHeader (StatusCode res') rw ;;
          copyBuffer rw' (RespBody res')
      end
  end.

(** Lines 163-180, one iteration: what the loop logs for [line]. *)
Definition logStreamLine (line : string) : M unit :=
  let line := TrimSpace line in
  if (String.length line =? 0)%nat then ret tt
  else
    let trimmedLine := TrimPrefix line "data: " in
    if String.eqb trimmedLine "[DONE]" then Printf LogStreamDone
    else
      match Unmarshal json trimmedLine with
      | Err err => Printf (LogStreamParseError err)
      | Ok chunk => Printf (LogStreamChunk trimmedLine)
      end.

Fixpoint logStreamLines (lines : list string) : M unit :=
  match lines with
  | [] => ret tt
  | line :: lines' => logStreamLine line ;; logStreamLines lines'
  end.

(** [func (w *streamResponseWriter) Write(p []byte)] *)
#[local] Instance streamResponseWriter_ResponseWriter
  : ResponseWriter streamResponseWriter := {|
  Write p w :=
    let lines := Split p (String "010" "") in
    logStreamLines lines ;;
    onWriter (Gin.Write p) ;;
    ret w;
  WriteHeader code w := onWriter (Gin.WriteHeader code) ;; ret w
|}.

(** [func (w *responseBodyWriter) Write] and [WriteHeader] *)
#[local] Instance responseBodyWriter_ResponseWriter
  : ResponseWriter responseBodyWriter := {|
  Write b w :=
    let w := {| body := body w +:+ b; statusCode := statusCode w |} in
    onWriter (Gin.Write b) ;;
    ret w;
  WriteHeader code w :=
    let w := {| body := body w; statusCode := code |} in
    onWriter (Gin.WriteHeader code) ;;
    ret w
|}.

(** Lines 217-219: the table applied to [content] in the order [order]. *)
Fixpoint applyModifications (order : list (string * string))
    (content : string) : string :=
  match order with
  | [] => content
  | (keyword, replacement) :: order' =>
      applyModifications order' (ReplaceAll content keyword replacement)
  end.

(** Lines 209-230: the loop over [messages], from index [i] on; [todo]
    are the elements not yet visited. *)
Fixpoint rangeMessages (i : nat) (todo messages : list (value float64))
    : M (list (value float64)) :=
  match todo with
  | [] => ret messages
  | msg :: todo' =>
      messages' <-
        match msg with
        | VMap message =>
            match message !! "content" with
            | Some (VString content) =>
                Printf (LogOriginalPrompt content) ;;
                let originalContent := content in
                let content :=
                  applyModifications
                    (rangeOrder i (PromptModifications config)) content in
                (if negb (String.eqb content originalContent)
                 then Printf (LogModifiedPrompt content) else ret tt) ;;
                let message := <["content" := VString content]> message in
                ret (<[i := VMap message]> messages)
            | _ => ret messages
            end
        | _ => ret messages
        end ;;
      rangeMessages (S i) todo' messages'
  end.

(** Lines 208-232: the rewriting of the decoded request. *)
Definition rewriteRequest (request : object float64)
    : M (object float64) :=
  match request, index request "messages" with
  | Some fields, Some (VSlice messages) =>
      messages' <- rangeMessages 0 messages messages ;;
      ret (Some (<["messages" := VSlice messages']> fields))
  | _, _ => ret request
  end.

Definition modifyRequestBody (body : string) : M string :=
  match Unmarshal json body with
  | Err err => Printf (LogRequestParseError err) ;; ret body
  | Ok request =>
      request' <- rewriteRequest request ;;
      match Marshal json request' with
      | Err err => Printf (LogMarshalError err) ;; ret body
      | Ok modifiedBody => ret modifiedBody
      end
  end.

Definition logResponse (resp : Response) : M (result Response) :=
  let h := Del (RespHeader resp) "Access-Control-Allow-Origin" in
  let h := Del h "Access-Control-Allow-Methods" in
  let h := Del h "Access-Control-Allow-Headers" in
  if String.eqb (Get h "Content-Type") "text/event-stream" then
    Printf (LogStreamResponseStart (StatusCode resp)) ;;
    ret (Ok {| StatusCode := StatusCode resp; RespHeader := h;
               RespBody := RespBody resp;
               RespBodyErr := RespBodyErr resp |})
  else
    match RespBodyErr resp with
    | Some err => Printf (LogReadResponseError err) ;; ret (Err err)
    | None =>
        let body := String.concat "" (RespBody resp) in
        Printf (LogResponse (StatusCode resp) body) ;;
        ret (Ok {| StatusCode := StatusCode resp; RespHeader := h;
                   RespBody := bufferReads copyBufferSize copyBufferSize body;
                   RespBodyErr := None |})
    end.

Definition handleStreamRequest (req : Request) (proxy : ReverseProxy)
    : M unit :=
  Gin.Header_ "Content-Type" "text/event-stream" ;;
  Gin.Header_ "Cache-Control" "no-cache" ;;
  Gin.Header_ "Connection" "keep-alive" ;;
  Gin.Header_ "Transfer-Encoding" "chunked" ;;
  onWriter (Gin.WriteHeader StatusOK) ;;
  ServeHTTP proxy StreamResponseWriter req ;;
  ret tt.

(** Lines 277-291: the reply of the first choice, when there is one. *)
Definition logReply (body : string) : M unit :=
  match Unmarshal json body with
  | Ok response =>
      match index response "choices" with
      | Some (VSlice (VMap choice :: _)) =>
          match choice !! "message" with
          | Some (VMap message) =>
              match message !! "content" with
              | Some (VString content) => Printf (LogAIReply content)
              | _ => ret tt
              end
          | _ => ret tt
          end
      | _ => ret tt
      end
  | Err err => Printf (LogReplyParseError err)
  end.

Definition handleNonStreamRequest (req : Request) (proxy : ReverseProxy)
    : M unit :=
  responseWriter <-
    ServeHTTP proxy {| body := ""; statusCode := 0 |} req ;;
  let body := body responseWriter in
  Printf (LogResponse (statusCode responseWriter) body) ;;
  logReply body ;;
  w <- getWriter ;;
  Gin.Data (statusCode responseWriter) (Get (header w) "Content-Type") body.

(** Lines 84-98: the director [handleProxy] installs; [inbound] is the
    request of the gin context, [req] the outbound one. *)
Definition proxyDirector (inbound req : Request) : Request :=
  let req := director req in
  let userAPIKey := Get (ReqHeader inbound) "Authorization" in
  let h :=
    if negb (String.eqb userAPIKey "")
    then Set_ (ReqHeader req) "Authorization" userAPIKey
    else Set_ (ReqHeader req) "Authorization"
           ("Bearer " +:+ OpenAIAPIKey config) in
  {| Method := Method req; Path := Path req; Host := openAIURL_Host;
     ReqHeader := h; Body := Body req;
     ContentLength := ContentLength req |}.

(** Line 129. *)
Definition isStreamRequest (req : Request) : bool :=
  Contains (Path req) "/stream"
  || String.eqb (Get (ReqHeader req) "Accept") "text/event-stream".

(** The bytes [c.JSON] renders for [gin.H{"error": ...}] at line 110. *)
Definition internalErrorJSON : string :=
  quoted "{'error':'内部服务器错误'}".

Definition handleProxy (req : Request) : M dispatch :=
  Printf (LogReceived (Method req) (Path req)) ;;
  Printf (LogRequestHeader (ReqHeader req)) ;;
  let proxy := {| Director := proxyDirector req;
                  ModifyResponse := logResponse |} in
  match Body req with
  | Some (Err err) =>
      Printf (LogReadBodyError err) ;;
      Gin.Data StatusInternalServerError
        "application/json; charset=utf-8" internalErrorJSON ;;
      ret BodyUnreadable
  | read =>
      captured <-
        match read with
        | Some (Ok requestBody) =>
            modifiedBody <- modifyRequestBody requestBody ;;
            ret (requestBody,
                 {| Method := Method req; Path := Path req;
                    Host := Host req; ReqHeader := ReqHeader req;
                    Body := Some (Ok modifiedBody);
                    ContentLength :=
                      Z.of_nat (String.length modifiedBody) |})
        | _ => ret ("", req)
        end ;;
      let '(requestBody, req) := captured in
      Printf (LogRequest (Method req) (Path req) requestBody) ;;
      if String.eqb (Method req) "OPTIONS" then
        Gin.Status StatusOK ;;
        ret Preflight
      else if isStreamRequest req then
        handleStreamRequest req proxy ;;
        ret StreamRelay
      else
        handleNonStreamRequest req proxy ;;
        ret BufferedRelay
  end.

(** *** What the loops compute

    The effect of each loop of the program written as a pure function;
    the lemmas below show the loops compute them. *)

Definition addLogs (w : World) (entries : list logEntry) : World :=
  {| logger := logger w ++ entries; writer := writer w |}.

(** What one iteration of the loop of [streamResponseWriter.Write] logs. *)
Definition streamLineLog (line : string) : list logEntry :=
  let line := TrimSpace line in
  if (String.length line =? 0)%nat then []
  else
    let trimmedLine := TrimPrefix line "data: " in
    if String.eqb trimmedLine "[DONE]" then [LogStreamDone]
    else
      match Unmarshal json trimmedLine with
      | Err err => [LogStreamParseError err]
      | Ok _ => [LogStreamChunk trimmedLine]
      end.

(** The message the loop of [modifyRequestBody] leaves at index [i]. *)
Definition rewriteMessage (i : nat) (msg : value float64) : value float64 :=
  match msg with
  | VMap message =>
      match message !! "content" with
      | Some (VString content) =>
          let content :=
            applyModifications (rangeOrder i (PromptModifications config))
              content in
          VMap (<["content" := VString content]> message)
      | _ => msg
      end
  | _ => msg
  end.

(** What that loop logs at index [i]. *)
Definition messageLog (i : nat) (msg : value float64) : list logEntry :=
  match msg with
  | VMap message =>
      match message !! "content" with
      | Some (VString content) =>
          let content' :=
          applyModifications (rangeOrder i (PromptModifications config))
            content in
          LogOriginalPrompt content
          :: (if negb (String.eqb content' content)
              then [LogModifiedPrompt content'] else [])
      | _ => []
      end
  | _ => []
  end.

(** A decoded request with a [messages] array. *)
Definition chatShaped (request : object float64) : Prop :=
  ∃ messages, index request "messages" = Some (VSlice messages).

(** A body that is not JSON for a request, or whose request has no
    [messages] array. *)
Definition malformed (body : string) : Prop :=
  match Unmarshal json body with
  | Err _ => True
  | Ok request => ¬ chatShaped request
  end.

(** No string content of a message holds a keyword of the table. *)
Definition keywordFree (request : object float64) : Prop :=
  ∀ messages i message content keyword,
    index request "messages" = Some (VSlice messages) →
    messages !! i = Some (VMap message) →
    message !! "content" = Some (VString content) →
    is_Some (PromptModifications config !! keyword) →
    Contains content keyword = false.

(** *** Inputs the properties speak of *)

(** The ASCII white space: tab, line feed, vertical tab, form feed,
    carriage return and space. *)
Definition asciiSpace (c : ascii) : bool :=
  let b := Utf8.byteval c in
  ((b =? 0x09) || (b =? 0x0A) || (b =? 0x0B) || (b =? 0x0C) || (b =? 0x0D)
   || (b =? 0x20))%N.

(** A string of ASCII white space. *)
Fixpoint blank (s : string) : bool :=
  match s with
  | "" => true
  | String c s' => asciiSpace c && blank s'
  end.

(** The chunk whose lines are [lines]: the lines with a line feed between
    each two, as one slice of bytes. *)
Definition chunk (lines : list string) : string :=
  String.concat (String "010" "") lines.

(** None of [lines] holds a line feed. *)
Definition lineFeedFree (lines : list string) : bool :=
  forallb (λ line, negb (Contains line (String "010" ""))) lines.

(** What the streaming writer logs while [reads] are copied into it, one
    [Write] for each. *)
Definition streamLog (reads : list string) : list logEntry :=
  concat ((λ p, concat (streamLineLog <$> Split p (String "010" "")))
            <$> reads).

(** [segment] is one of the pieces of [path] between slashes. *)
Definition hasPathSegment (path segment : string) : bool :=
  bool_decide (segment ∈ Split path "/").

(** Lines 104-119 of [handleProxy] for a body that was read: the body is
    rewritten and put back, the request is logged with the bytes that came
    in, and the request so changed is what the OPTIONS check and the
    relays receive. *)
Definition forwardedRequest (req : Request) : M Request :=
  captured <-
    match Body req with
    | Some (Ok requestBody) =>
        modifiedBody <- modifyRequestBody requestBody ;;
        ret (requestBody,
             {| Method := Method req; Path := Path req;
                Host := Host req; ReqHeader := ReqHeader req;
                Body := Some (Ok modifiedBody);
                ContentLength :=
                  Z.of_nat (String.length modifiedBody) |})
    | _ => ret ("", req)
    end ;;
  let '(requestBody, req) := captured in
  Printf (LogRequest (Method req) (Path req) requestBody) ;;
  ret req.

(** ** Properties *)

(** *** Strings *)

Lemma HasPrefix_nil (s : string) : HasPrefix s "" = true.
Proof. by destruct s. Qed.

Lemma Contains_nil (s : string) : Contains s "" = true.
Proof. destruct s; simpl; by rewrite ?HasPrefix_nil. Qed.

Lemma HasPrefix_app (pre s : string) : HasPrefix (pre +:+ s) pre = true.
Proof.
  unfold HasPrefix. induction pre as [|c pre IH]; simpl.
  - by destruct s.
  - destruct (ascii_dec c c); [done | congruence].
Qed.

Lemma append_nil_r (s : string) : s +:+ "" = s.
Proof.
  induction s as [|c s IH]; [done |].
  change (String c (s +:+ "") = String c s). by rewrite IH.
Qed.

Lemma append_assoc (a b c : string) : (a +:+ b) +:+ c = a +:+ b +:+ c.
Proof.
  induction a as [|x a IH]; [done |].
  change (String x ((a +:+ b) +:+ c) = String x (a +:+ b +:+ c)).
  by rewrite IH.
Qed.

Lemma HasPrefix_cons (x c : ascii) (s e : string) :
  HasPrefix (String c s) (String x e) = bool_decide (x = c) && HasPrefix s e.
Proof.
  unfold HasPrefix. simpl. destruct (ascii_dec x c) as [->|Hne].
  - by rewrite bool_decide_true.
  - by rewrite bool_decide_false.
Qed.

Lemma HasPrefix_inv (s pre : string) :
  HasPrefix s pre = true → ∃ rest, s = pre +:+ rest.
Proof.
  unfold HasPrefix. revert s. induction pre as [|c pre IH]; intros s Hpre.
  - by exists s.
  - destruct s as [|c' s]; [done |]. simpl in Hpre.
    destruct (ascii_dec c c') as [<-|]; [| done].
    destruct (IH s Hpre) as [rest ->]. by exists rest.
Qed.

(** [Contains] finds [sub] exactly in the strings that are [sub] with
    something before and something after. *)
Lemma Contains_spec (s sub : string) :
  Contains s sub = true ↔ ∃ pre post, s = pre +:+ sub +:+ post.
Proof.
  split.
  - induction s as [|c s IH]; cbn [Contains]; intros Hsub.
    + rewrite orb_false_r in Hsub.
      apply HasPrefix_inv in Hsub as [rest ->]. by exists "", rest.
    + apply orb_true_iff in Hsub as [Hpre | Hlater].
      * apply HasPrefix_inv in Hpre as [rest ->]. by exists "", rest.
      * destruct (IH Hlater) as (pre & post & ->).
        by exists (String c pre), post.
  - intros (pre & post & ->). induction pre as [|c pre IH].
    + change ("" +:+ sub +:+ post) with (sub +:+ post).
      destruct (sub +:+ post) eqn:Heq; cbn [Contains]; rewrite <- Heq;
        by rewrite HasPrefix_app.
    + change (String c pre +:+ sub +:+ post)
        with (String c (pre +:+ sub +:+ post)).
      cbn [Contains]. by rewrite IH, orb_true_r.
Qed.

Lemma substring_all (s : string) : substring 0 (String.length s) s = s.
Proof. induction s as [|c s IH]; [done |]. simpl. by rewrite IH. Qed.

Lemma TrimPrefix_append (pre s : string) : TrimPrefix (pre +:+ s) pre = s.
Proof.
  unfold TrimPrefix. rewrite HasPrefix_app.
  induction pre as [|c pre IH].
  - simpl. rewrite Nat.sub_0_r. apply substring_all.
  - exact IH.
Qed.

(** The two texts [TrimPrefix _ "data: "] turns into the sentinel. *)
Lemma sentinel_forms (t : string) :
  TrimPrefix t "data: " = "[DONE]" ↔ t = "[DONE]" ∨ t = "data: [DONE]".
Proof.
  split.
  - intros Hdone. destruct (HasPrefix t "data: ") eqn:Hpre.
    + apply HasPrefix_inv in Hpre as [rest ->].
      rewrite TrimPrefix_append in Hdone. subst. by right.
    + unfold TrimPrefix in Hdone. rewrite Hpre in Hdone. by left.
  - by intros [-> | ->].
Qed.

(** **** [Split] at a single byte *)

Lemma HasPrefix_single (x c : ascii) (s : string) :
  HasPrefix (String c s) (String x "") = bool_decide (x = c).
Proof. by rewrite HasPrefix_cons, HasPrefix_nil, andb_true_r. Qed.

Lemma Split_sep (x : ascii) (s : string) :
  Split (String x s) (String x "") = "" :: Split s (String x "").
Proof.
  unfold Split. cbn [splitScan]. rewrite HasPrefix_single.
  by rewrite bool_decide_true.
Qed.

Lemma Split_other (x c : ascii) (s : string) :
  c ≠ x →
  Split (String c s) (String x "")
  = match Split s (String x "") with
    | h :: t => String c h :: t
    | [] => [String c ""]
    end.
Proof.
  intros Hne. unfold Split. cbn [splitScan]. rewrite HasPrefix_single.
  by rewrite bool_decide_false by congruence.
Qed.

Lemma Split_nonempty (x : ascii) (s : string) : Split s (String x "") ≠ [].
Proof.
  induction s as [|c s IH]; [done |].
  destruct (decide (c = x)) as [->|Hne].
  - by rewrite Split_sep.
  - rewrite Split_other by done. by destruct (Split s _).
Qed.

(** The pieces of two strings joined by the separator are the pieces of
    the one followed by the pieces of the other. *)
Lemma Split_app (x : ascii) (a b : string) :
  Split (a +:+ String x b) (String x "")
  = Split a (String x "") ++ Split b (String x "").
Proof.
  induction a as [|c a IH]; [apply Split_sep |].
  change (String c a +:+ String x b) with (String c (a +:+ String x b)).
  destruct (decide (c = x)) as [->|Hne].
  - rewrite !Split_sep. by rewrite IH.
  - rewrite !Split_other by done. rewrite IH.
    pose proof (Split_nonempty x a). by destruct (Split a _).
Qed.

Lemma Contains_single (x c : ascii) (s : string) :
  Contains (String c s) (String x "")
  = bool_decide (x = c) || Contains s (String x "").
Proof. cbn [Contains]. by rewrite HasPrefix_single. Qed.

Lemma Split_line (x : ascii) (s : string) :
  Contains s (String x "") = false → Split s (String x "") = [s].
Proof.
  induction s as [|c s IH]; [done |].
  rewrite Contains_single. intros [Hc Hs]%orb_false_iff.
  apply bool_decide_eq_false in Hc.
  rewrite Split_other by congruence. by rewrite IH.
Qed.

(** [Split] undoes the joining of pieces that do not hold the separator,
    and every string is such a joining of its pieces. *)
Lemma Split_join (x : ascii) (line : string) (lines : list string) :
  Forall (λ l, Contains l (String x "") = false) (line :: lines) →
  Split (String.concat (String x "") (line :: lines)) (String x "")
  = line :: lines.
Proof.
  revert line. induction lines as [|l lines IH]; intros line Hfree.
  - apply Split_line. by inversion Hfree.
  - change (String.concat (String x "") (line :: l :: lines))
      with (line +:+ String x (String.concat (String x "") (l :: lines))).
    apply Forall_cons in Hfree as [Hline Hrest].
    rewrite Split_app, IH by done. by rewrite Split_line.
Qed.

Lemma join_Split (x : ascii) (s : string) :
  String.concat (String x "") (Split s (String x "")) = s
  ∧ Forall (λ l, Contains l (String x "") = false) (Split s (String x "")).
Proof.
  induction s as [|c s IH]; [by repeat constructor |].
  destruct IH as [IHjoin IHfree].
  destruct (decide (c = x)) as [->|Hne].
  - rewrite Split_sep. split; [| by constructor].
    pose proof (Split_nonempty x s).
    destruct (Split s (String x "")) as [|h t] eqn:Hs; [done |].
    change (String.concat (String x "") ("" :: h :: t))
      with (String x (String.concat (String x "") (h :: t))).
    by rewrite IHjoin.
  - rewrite Split_other by done.
    pose proof (Split_nonempty x s).
    destruct (Split s (String x "")) as [|h t] eqn:Hs; [done |].
    apply Forall_cons in IHfree as [Hh Ht]. split.
    + destruct t as [|h' t].
      * simpl in *. by rewrite IHjoin.
      * change (String.concat (String x "") (String c h :: h' :: t))
          with (String c (String.concat (String x "") (h :: h' :: t))).
        by rewrite IHjoin.
    + constructor; [| done]. rewrite Contains_single, Hh.
      by rewrite bool_decide_false by congruence.
Qed.

Lemma lineFeedFree_Forall (lines : list string) :
  lineFeedFree lines = true
  ↔ Forall (λ l, Contains l (String "010" "") = false) lines.
Proof.
  unfold lineFeedFree. rewrite forallb_forall, Forall_forall.
  split; intros Hfree line Hin.
  - apply list_elem_of_In, Hfree, negb_true_iff in Hin. done.
  - apply negb_true_iff, Hfree, list_elem_of_In, Hin.
Qed.

(** The lines [Write] finds in a chunk are the lines the chunk was made
    of. *)
Lemma Split_chunk (lines : list string) :
  lines ≠ [] → lineFeedFree lines = true →
  Split (chunk lines) (String "010" "") = lines.
Proof.
  intros Hne Hfree. destruct lines as [|line lines]; [done |].
  by apply Split_join, lineFeedFree_Forall.
Qed.

Lemma chunk_Split (p : string) :
  chunk (Split p (String "010" "")) = p
  ∧ lineFeedFree (Split p (String "010" "")) = true
  ∧ Split p (String "010" "") ≠ [].
Proof.
  destruct (join_Split "010" p) as [Hjoin Hfree].
  split_and!; [done | by apply lineFeedFree_Forall | apply Split_nonempty].
Qed.

(** **** [TrimSpace] on ASCII white space *)

Lemma rev_app_append (s acc : string) :
  String.rev_app s acc = String.rev s +:+ acc.
Proof.
  revert acc. induction s as [|c s IH]; intros acc; [done |].
  unfold String.rev. cbn [String.rev_app].
  rewrite (IH (String c acc)), (IH (String c "")). by rewrite append_assoc.
Qed.

Lemma rev_append (a b : string) :
  String.rev (a +:+ b) = String.rev b +:+ String.rev a.
Proof.
  induction a as [|c a IH]; [by rewrite append_nil_r |].
  change (String c a +:+ b) with (String c (a +:+ b)).
  unfold String.rev at 1 3. cbn [String.rev_app].
  rewrite !rev_app_append, IH. by rewrite append_assoc.
Qed.

Lemma rev_involutive (s : string) : String.rev (String.rev s) = s.
Proof.
  induction s as [|c s IH]; [done |].
  unfold String.rev at 2. cbn [String.rev_app].
  rewrite rev_app_append, rev_append, IH. done.
Qed.

Lemma blank_append (a b : string) : blank (a +:+ b) = blank a && blank b.
Proof.
  induction a as [|c a IH]; [done |].
  change (String c a +:+ b) with (String c (a +:+ b)). cbn [blank].
  by rewrite IH, andb_assoc.
Qed.

Lemma blank_rev (pad : string) : blank (String.rev pad) = blank pad.
Proof.
  induction pad as [|c pad IH]; [done |].
  unfold String.rev. cbn [String.rev_app].
  rewrite rev_app_append, blank_append, IH. cbn [blank].
  by rewrite andb_true_r, andb_comm.
Qed.

Ltac find_encoding :=
  let encs := eval vm_compute in Utf8.spaces in
  change Utf8.spaces with encs;
  cbn [fmap list_fmap String.rev String.rev_app List.find];
  rewrite ?HasPrefix_cons, ?HasPrefix_nil;
  by vm_compute.

(** A string that starts with an ASCII white space starts with that
    sequence of [Utf8.spaces] and with no other; one that starts with
    another ASCII byte starts with none. *)
Lemma find_space (c : ascii) (s : string) :
  asciiSpace c = true →
  List.find (HasPrefix (String c s)) Utf8.spaces = Some (String c "")
  ∧ List.find (HasPrefix (String c s)) (String.rev <$> Utf8.spaces)
    = Some (String c "").
Proof.
  intros Hc. destruct c as [[] [] [] [] [] [] [] []];
    vm_compute in Hc; try discriminate Hc; split; find_encoding.
Qed.

Lemma find_solid (c : ascii) (s : string) :
  asciiSpace c = false →
  (Utf8.byteval c <? 0x80)%N = true →
  List.find (HasPrefix (String c s)) Utf8.spaces = None
  ∧ List.find (HasPrefix (String c s)) (String.rev <$> Utf8.spaces) = None.
Proof.
  intros Hc Hascii. destruct c as [[] [] [] [] [] [] [] []];
    vm_compute in Hascii; try discriminate Hascii;
    vm_compute in Hc; try discriminate Hc; split; find_encoding.
Qed.

Lemma trimLeading_blank (pad s : string) :
  blank pad = true →
  trimLeading Utf8.spaces 0 (pad +:+ s) = trimLeading Utf8.spaces 0 s
  ∧ trimLeading (String.rev <$> Utf8.spaces) 0 (pad +:+ s)
    = trimLeading (String.rev <$> Utf8.spaces) 0 s.
Proof.
  induction pad as [|c pad IH]; [done |].
  cbn [blank]. intros [Hc Hpad]%andb_true_iff.
  change (String c pad +:+ s) with (String c (pad +:+ s)).
  cbn [trimLeading].
  destruct (find_space c (pad +:+ s) Hc) as [-> ->].
  cbn [String.length Nat.sub]. by apply IH.
Qed.

Lemma trimLeading_solid (c : ascii) (s : string) :
  asciiSpace c = false →
  (Utf8.byteval c <? 0x80)%N = true →
  trimLeading Utf8.spaces 0 (String c s) = String c s
  ∧ trimLeading (String.rev <$> Utf8.spaces) 0 (String c s) = String c s.
Proof.
  intros Hc Hascii. cbn [trimLeading].
  by destruct (find_solid c s Hc Hascii) as [-> ->].
Qed.

(** [TrimSpace] removes the ASCII white space around a text that starts
    and ends with an ASCII byte that is no white space. *)
Lemma TrimSpace_padded (pad1 pad2 core : string) (c d : ascii)
    (s t : string) :
  blank pad1 = true →
  blank pad2 = true →
  core = String c s →
  String.rev core = String d t →
  asciiSpace c = false → (Utf8.byteval c <? 0x80)%N = true →
  asciiSpace d = false → (Utf8.byteval d <? 0x80)%N = true →
  TrimSpace (pad1 +:+ core +:+ pad2) = core.
Proof.
  intros Hpad1 Hpad2 Hcore Hrev Hc Hc' Hd Hd'. unfold TrimSpace.
  rewrite (proj1 (trimLeading_blank pad1 _ Hpad1)).
  rewrite Hcore at 1. change (String c s +:+ pad2) with (String c (s +:+ pad2)).
  rewrite (proj1 (trimLeading_solid c _ Hc Hc')).
  change (String c (s +:+ pad2)) with (String c s +:+ pad2).
  rewrite <- Hcore, rev_append.
  rewrite (proj2 (trimLeading_blank (String.rev pad2) _
                    ltac:(by rewrite blank_rev))).
  rewrite Hrev, (proj2 (trimLeading_solid d _ Hd Hd')), <- Hrev.
  apply rev_involutive.
Qed.

(** The forms of the sentinel line the properties below name. *)
Lemma TrimSpace_sentinel (pad1 pad2 : string) :
  blank pad1 = true →
  blank pad2 = true →
  TrimSpace (pad1 +:+ "[DONE]" +:+ pad2) = "[DONE]"
  ∧ TrimSpace (pad1 +:+ "data: [DONE]" +:+ pad2) = "data: [DONE]"
  ∧ TrimSpace (pad1 +:+ "data:[DONE]" +:+ pad2) = "data:[DONE]"
  ∧ TrimSpace (pad1 +:+ "data: data: [DONE]" +:+ pad2) = "data: data: [DONE]".
Proof.
  intros Hpad1 Hpad2.
  split_and!; by eapply TrimSpace_padded.
Qed.

Lemma replaceScan_absent (old new s : string) :
  Contains s old = false → replaceScan old new 0 s = s.
Proof.
  induction s as [|c s IH]; [done |].
  cbn [Contains replaceScan]. intros [Hpre Hrest]%orb_false_iff.
  rewrite Hpre. f_equal. by apply IH.
Qed.

(** A keyword that does not occur is replaced nowhere. *)
Lemma ReplaceAll_absent (s old new : string) :
  Contains s old = false → ReplaceAll s old new = s.
Proof.
  intros Habs. unfold ReplaceAll.
  destruct (String.eqb old new); [done |].
  destruct old as [|c old].
  - by rewrite Contains_nil in Habs.
  - by apply replaceScan_absent.
Qed.

Lemma replaceScan_skip (old new pre s : string) :
  replaceScan old new (String.length pre) (pre +:+ s) = replaceScan old new 0 s.
Proof.
  induction pre as [|c pre IH]; simpl; [| done].
  destruct s; [done |]. done.
Qed.

(** The three equations of replacement by a non-empty keyword: nothing
    to do at the end, a match is replaced and the scan resumes after it,
    any other byte is copied. *)
Lemma ReplaceAll_end (old new : string) :
  old ≠ "" → ReplaceAll "" old new = "".
Proof.
  intros Hne. unfold ReplaceAll.
  destruct (String.eqb old new); [done |]. by destruct old.
Qed.

Lemma ReplaceAll_match (s old new : string) :
  old ≠ "" → ReplaceAll (old +:+ s) old new = new +:+ ReplaceAll s old new.
Proof.
  intros Hne. unfold ReplaceAll.
  destruct (String.eqb old new) eqn:Heq.
  - apply String.eqb_eq in Heq. by subst.
  - destruct old as [|a t]; [done |].
    change (String a t +:+ s) with (String a (t +:+ s)).
    cbn [replaceScan].
    change (String a (t +:+ s)) with (String a t +:+ s).
    rewrite HasPrefix_app. cbn [String.length]. rewrite Nat.sub_1_r. simpl pred.
    by rewrite replaceScan_skip.
Qed.

Lemma ReplaceAll_copy (c : ascii) (s old new : string) :
  old ≠ "" → HasPrefix (String c s) old = false →
  ReplaceAll (String c s) old new = String c (ReplaceAll s old new).
Proof.
  intros Hne Hpre. unfold ReplaceAll.
  destruct (String.eqb old new); [done |].
  destruct old as [|a t]; [done |].
  cbn [replaceScan]. by rewrite Hpre.
Qed.

Lemma applyModifications_foldl (order : list (string * string))
    (content : string) :
  applyModifications order content
  = foldl (λ c kr, ReplaceAll c kr.1 kr.2) content order.
Proof.
  revert content.
  induction order as [|[k r] order IH]; intros content; [done |].
  simpl. apply IH.
Qed.

Lemma applyModifications_absent (order : list (string * string))
    (content : string) :
  (∀ kr, kr ∈ order → Contains content kr.1 = false) →
  applyModifications order content = content.
Proof.
  induction order as [|[k r] order IH]; intros Habs; [done |].
  simpl. rewrite ReplaceAll_absent.
  - apply IH. intros kr Hin. apply Habs. by right.
  - apply (Habs (k, r)). by left.
Qed.

Lemma RangeOrder_lookup (i : nat) (kr : string * string) :
  RangeOrder rangeOrder →
  kr ∈ rangeOrder i (PromptModifications config) →
  PromptModifications config !! kr.1 = Some kr.2.
Proof.
  intros Hord Hin. rewrite (Hord i _) in Hin.
  destruct kr as [k r]. by apply elem_of_map_to_list in Hin.
Qed.

(** *** The logger *)

Lemma addLogs_nil (w : World) : addLogs w [] = w.
Proof. destruct w. unfold addLogs. simpl. by rewrite app_nil_r. Qed.

Lemma addLogs_app (w : World) (a b : list logEntry) :
  addLogs (addLogs w a) b = addLogs w (a ++ b).
Proof. unfold addLogs. simpl. by rewrite app_assoc. Qed.

Lemma logStreamLine_run (line : string) (w : World) :
  logStreamLine line w = (tt, addLogs w (streamLineLog line)).
Proof.
  unfold logStreamLine, streamLineLog.
  destruct (String.length (TrimSpace line) =? 0)%nat.
  { by rewrite addLogs_nil. }
  destruct (String.eqb _ "[DONE]"); [done |].
  by destruct (Unmarshal json _).
Qed.

Lemma logStreamLines_run (lines : list string) (w : World) :
  logStreamLines lines w = (tt, addLogs w (concat (streamLineLog <$> lines))).
Proof.
  revert w. induction lines as [|line lines IH]; intros w; simpl.
  - by rewrite addLogs_nil.
  - unfold bind. rewrite logStreamLine_run, IH. by rewrite addLogs_app.
Qed.

(** *** The loop over the messages *)

Lemma rangeMessages_step (i : nat) (msg : value float64)
    (pre todo : list (value float64)) (w : World) :
  length pre = i →
  rangeMessages i (msg :: todo) (pre ++ msg :: todo) w
  = rangeMessages (S i) todo ((pre ++ [rewriteMessage i msg]) ++ todo)
      (addLogs w (messageLog i msg)).
Proof.
  intros Hlen. cbn [rangeMessages]. unfold bind at 1.
  assert (Hsame : rangeMessages (S i) todo (pre ++ msg :: todo) w
                  = rangeMessages (S i) todo ((pre ++ [msg]) ++ todo)
                      (addLogs w [])).
  { by rewrite addLogs_nil, <- app_assoc. }
  destruct msg as [| | | | |message]; try exact Hsame.
  unfold rewriteMessage, messageLog.
  destruct (message !! "content") as [[| | |content| |]|]; try exact Hsame.
  unfold bind, Printf. simpl.
  rewrite <- Hlen, insert_app_r_alt, Nat.sub_diag by lia. simpl.
  rewrite <- app_assoc. simpl.
  destruct (negb _); simpl; unfold addLogs; simpl; by rewrite <- ?app_assoc.
Qed.

Lemma rangeMessages_run (todo pre : list (value float64)) (i : nat)
    (w : World) :
  length pre = i →
  rangeMessages i todo (pre ++ todo) w
  = (pre ++ imap (λ j, rewriteMessage (i + j)) todo,
     addLogs w (concat (imap (λ j, messageLog (i + j)) todo))).
Proof.
  revert pre i w. induction todo as [|msg todo IH]; intros pre i w Hlen.
  - simpl. by rewrite addLogs_nil.
  - rewrite rangeMessages_step by done.
    rewrite IH by (rewrite length_app; simpl; lia).
    rewrite addLogs_app. simpl. rewrite Nat.add_0_r, <- app_assoc. simpl.
    f_equal; [f_equal; f_equal | do 3 f_equal];
      apply imap_ext; intros j x _; simpl; f_equal; lia.
Qed.


(** *** The rewriting of a request *)

Lemma rewriteRequest_chat (fields : gmap string (value float64))
    (messages : list (value float64)) (w : World) :
  fields !! "messages" = Some (VSlice messages) →
  rewriteRequest (Some fields) w
  = (Some (<["messages" := VSlice (imap rewriteMessage messages)]> fields),
     addLogs w (concat (imap messageLog messages))).
Proof.
  intros Hmsgs. unfold rewriteRequest. simpl. rewrite Hmsgs.
  pose proof (rangeMessages_run messages [] 0 w eq_refl) as Hrun.
  simpl in Hrun. unfold bind. by rewrite Hrun.
Qed.

Lemma rewriteRequest_other (request : object float64) (w : World) :
  ¬ chatShaped request → rewriteRequest request w = (request, w).
Proof.
  intros Hshape. unfold rewriteRequest, chatShaped in *.
  destruct request as [fields|]; [| done]. simpl in *.
  destruct (fields !! "messages") as [[| | | |messages|]|]; try done.
  destruct Hshape. by exists messages.
Qed.

Lemma rewriteMessage_keywordFree (fields : gmap string (value float64))
    (messages : list (value float64)) :
  RangeOrder rangeOrder →
  keywordFree (Some fields) →
  fields !! "messages" = Some (VSlice messages) →
  imap rewriteMessage messages = messages
  ∧ concat (imap messageLog messages)
    = concat (imap (λ _ msg,
        match msg with
        | VMap message =>
            match message !! "content" with
            | Some (VString content) => [LogOriginalPrompt content]
            | _ => []
            end
        | _ => []
        end) messages).
Proof.
  intros Hord Hfree Hmsgs.
  assert (Hid : ∀ i message content,
             messages !! i = Some (VMap message) →
             message !! "content" = Some (VString content) →
             applyModifications (rangeOrder i (PromptModifications config))
               content = content).
  { intros i message content Hi Hc. apply applyModifications_absent.
    intros kr Hin. apply (Hfree messages i message content kr.1); try done.
    exists kr.2. by apply (RangeOrder_lookup i). }
  split.
  - apply list_eq. intros i. rewrite list_lookup_imap.
    destruct (messages !! i) as [msg|] eqn:Hi; [| done]. simpl. f_equal.
    unfold rewriteMessage. destruct msg as [| | | | |message]; try done.
    destruct (message !! "content") as [[| | |content| |]|] eqn:Hc; try done.
    rewrite (Hid i message content) by done. by rewrite insert_id.
  - f_equal. apply list_eq. intros i. rewrite !list_lookup_imap.
    destruct (messages !! i) as [msg|] eqn:Hi; [| done]. simpl. f_equal.
    unfold messageLog. destruct msg as [| | | | |message]; try done.
    destruct (message !! "content") as [[| | |content| |]|] eqn:Hc; try done.
    rewrite (Hid i message content) by done. by rewrite String.eqb_refl.
Qed.

(** C7. When the decoded request has a [messages] array, the rewriting
    keeps every field of the request other than [messages]; the array
    keeps its length and order; a message that is an object with a string
    [content] keeps every other field; any other element is left as it
    was.  The body sent on is the encoding of the request so rewritten. *)
Theorem rewrite_preserves_frame (fields : gmap string (value float64))
    (messages : list (value float64)) (w : World) :
  fields !! "messages" = Some (VSlice messages) →
  ∃ fields' messages',
    (rewriteRequest (Some fields) w).1 = Some fields'
    ∧ (∀ body, Unmarshal json body = Ok (Some fields) →
         (modifyRequestBody body w).1
         = match Marshal json (Some fields') with
           | Ok modifiedBody => modifiedBody
           | Err _ => body
           end)
    ∧ (∀ k, k ≠ "messages" → fields' !! k = fields !! k)
    ∧ fields' !! "messages" = Some (VSlice messages')
    ∧ length messages' = length messages
    ∧ ∀ i msg, messages !! i = Some msg →
        ∃ msg', messages' !! i = Some msg'
          ∧ match msg with
            | VMap message =>
                match message !! "content" with
                | Some (VString _) =>
                    ∃ message' content',
                      msg' = VMap message'
                      ∧ message' !! "content" = Some (VString content')
                      ∧ ∀ k, k ≠ "content" → message' !! k = message !! k
                | _ => msg' = msg
                end
            | _ => msg' = msg
            end.
Proof.
  intros Hmsgs.
  exists (<["messages" := VSlice (imap rewriteMessage messages)]> fields),
    (imap rewriteMessage messages).
  rewrite (rewriteRequest_chat _ _ _ Hmsgs). simpl.
  split_and!.
  - done.
  - intros body Hbody. unfold modifyRequestBody. rewrite Hbody.
    unfold bind. rewrite (rewriteRequest_chat _ _ _ Hmsgs).
    by destruct (Marshal json _).
  - intros k Hk. by rewrite lookup_insert_ne.
  - by rewrite lookup_insert_eq.
  - by rewrite length_imap.
  - intros i msg Hi. exists (rewriteMessage i msg).
    rewrite list_lookup_imap, Hi. split; [done |].
    unfold rewriteMessage. destruct msg as [| | | | |message]; try done.
    destruct (message !! "content") as [[| | |content| |]|]; try done.
    eexists _, _. split_and!; [done | by rewrite lookup_insert_eq |].
    intros k Hk. by rewrite lookup_insert_ne.
Qed.

(** C3, as the code has it.  Every message whose [content] is a string
    gets as its new content the result of applying [ReplaceAll] with each
    pair of the table once, in the order in which the [range] over the map
    meets the pairs for that message (an order Go does not fix); each
    [ReplaceAll] scans from the left and resumes after a match. *)
Theorem rewrite_applies_table_in_range_order
    (fields : gmap string (value float64)) (messages : list (value float64))
    (i : nat) (message : gmap string (value float64)) (content : string)
    (w : World) :
  RangeOrder rangeOrder →
  fields !! "messages" = Some (VSlice messages) →
  messages !! i = Some (VMap message) →
  message !! "content" = Some (VString content) →
  ∃ messages',
    (rewriteRequest (Some fields) w).1
    = Some (<["messages" := VSlice messages']> fields)
    ∧ messages' !! i
      = Some (VMap (<["content" :=
            VString (foldl (λ c kr, ReplaceAll c kr.1 kr.2) content
                       (rangeOrder i (PromptModifications config)))]>
            message))
    ∧ rangeOrder i (PromptModifications config)
      ≡ₚ map_to_list (PromptModifications config)
    ∧ ∀ old new, old ≠ "" →
        ReplaceAll "" old new = ""
        ∧ (∀ s, ReplaceAll (old +:+ s) old new = new +:+ ReplaceAll s old new)
        ∧ (∀ c s, HasPrefix (String c s) old = false →
             ReplaceAll (String c s) old new = String c (ReplaceAll s old new)).
Proof.
  intros Hord Hmsgs Hi Hc. exists (imap rewriteMessage messages).
  rewrite (rewriteRequest_chat _ _ _ Hmsgs). simpl. split_and!.
  - done.
  - rewrite list_lookup_imap, Hi. simpl. unfold rewriteMessage.
    by rewrite Hc, applyModifications_foldl.
  - apply Hord.
  - intros old new Hne. split_and!.
    + by apply ReplaceAll_end.
    + intros s. by apply ReplaceAll_match.
    + intros c s. by apply ReplaceAll_copy.
Qed.


(** C4, as the code has it.  When no string content of a message holds a
    keyword, the rewriting leaves the decoded request as it is, and the
    body sent on is what [json.Marshal] writes for that request (the
    inbound bytes only if [Unmarshal] or [Marshal] fails). *)
Theorem keyword_free_body_is_reencoded (body : string) (w : World) :
  RangeOrder rangeOrder →
  (∀ request, Unmarshal json body = Ok request → keywordFree request) →
  (modifyRequestBody body w).1
  = match Unmarshal json body with
    | Err _ => body
    | Ok request =>
        match Marshal json request with
        | Ok modifiedBody => modifiedBody
        | Err _ => body
        end
    end.
Proof.
  intros Hord Hfree. unfold modifyRequestBody.
  destruct (Unmarshal json body) as [request|err]; [| done].
  specialize (Hfree request eq_refl). unfold bind.
  assert (Hsame : (rewriteRequest request w).1 = request).
  { destruct request as [fields|]; [| done].
    destruct (fields !! "messages") as [[| | | |messages|]|] eqn:Hmsgs;
      try (rewrite rewriteRequest_other; [done |];
           intros [l Hl]; simpl in Hl; congruence).
    rewrite (rewriteRequest_chat _ _ _ Hmsgs). simpl.
    destruct (rewriteMessage_keywordFree fields messages) as [-> _]; try done.
    by rewrite insert_id. }
  destruct (rewriteRequest request w) as [request' w']. simpl in Hsame. subst.
  by destruct (Marshal json request).
Qed.

Lemma handleProxy_dispatch (req : Request) (w : World) :
  (∀ err, Body req ≠ Some (Err err)) →
  (handleProxy req w).1
  = if String.eqb (Method req) "OPTIONS" then Preflight
    else if isStreamRequest req then StreamRelay else BufferedRelay.
Proof.
  intros Hread. unfold handleProxy, bind, Printf. simpl.
  destruct (Body req) as [[requestBody|err]|]; [| by destruct (Hread err) |].
  - destruct (modifyRequestBody requestBody _) as [modifiedBody w1]. simpl.
    destruct (String.eqb (Method req) "OPTIONS"); [done |].
    unfold isStreamRequest. simpl.
    destruct (Contains (Path req) "/stream" || _).
    + by destruct (handleStreamRequest _ _ _).
    + by destruct (handleNonStreamRequest _ _ _).
  - simpl. destruct (String.eqb (Method req) "OPTIONS"); [done |].
    destruct (isStreamRequest req).
    + by destruct (handleStreamRequest _ _ _).
    + by destruct (handleNonStreamRequest _ _ _).
Qed.

(** C5, as the code has it.  A body [json.Unmarshal] refuses is sent on
    byte for byte, and the parse error is all the rewriter logs.  A body
    that decodes but has no [messages] array is sent on as [json.Marshal]
    writes it, with nothing logged (the inbound bytes and the error, if
    [Marshal] fails).  Either way no rewritten prompt is logged and the
    request is not answered with the read-failure reply. *)
Theorem malformed_body_forwarding (body : string) (w : World) :
  malformed body →
  modifyRequestBody body w
  = match Unmarshal json body with
    | Err err => (body, addLogs w [LogRequestParseError err])
    | Ok request =>
        match Marshal json request with
        | Ok modifiedBody => (modifiedBody, w)
        | Err err => (body, addLogs w [LogMarshalError err])
        end
    end
  ∧ ∀ req w',
      Body req = Some (Ok body) → (handleProxy req w').1 ≠ BodyUnreadable.
Proof.
  intros Hbad. split.
  - unfold malformed, modifyRequestBody in *.
    destruct (Unmarshal json body) as [request|err]; [| done].
    unfold bind. rewrite rewriteRequest_other by done.
    by destruct (Marshal json request).
  - intros req w' Hbody.
    rewrite handleProxy_dispatch by (intros err; congruence).
    destruct (String.eqb _ _); [done |]. by destruct (isStreamRequest req).
Qed.

(** *** The response writers *)

Lemma written_WriteHeaderNow (c : client) :
  written (Gin.WriteHeaderNow c) = written c.
Proof. unfold Gin.WriteHeaderNow. by destruct (Gin.Written c). Qed.

Lemma written_Write (p : string) (c : client) :
  written (Gin.Write p c) = written c ++ [p].
Proof. unfold Gin.Write. simpl. by rewrite written_WriteHeaderNow. Qed.

Lemma stream_Write_run (p : string) (rw : streamResponseWriter) (w : World) :
  Write p rw w
  = (rw, {| logger := logger w
                      ++ concat (streamLineLog <$> Split p (String "010" ""));
            writer := Gin.Write p (writer w) |}).
Proof.
  cbn [Write streamResponseWriter_ResponseWriter]. unfold bind.
  by rewrite logStreamLines_run.
Qed.

Lemma copyBuffer_stream (reads : list string) (w : World) :
  written (writer (copyBuffer StreamResponseWriter reads w).2)
  = written (writer w) ++ reads.
Proof.
  revert w. induction reads as [|chunk reads IH]; intros w.
  - simpl. by rewrite app_nil_r.
  - cbn [copyBuffer]. unfold bind. rewrite stream_Write_run, IH.
    cbn [writer]. by rewrite written_Write, <- app_assoc.
Qed.

(** C1. [Write] of the streaming writer hands to the client's writer, in
    that one call, the very slice it was given, whatever the lines of the
    slice are; the pass over the lines only adds to the log.  So the
    writes the client sees during a relay are the reads of the upstream
    body, in order. *)
Theorem stream_write_forwards_bytes (p : string) (w : World) :
  writer (Write p StreamResponseWriter w).2 = Gin.Write p (writer w)
  ∧ written (writer (Write p StreamResponseWriter w).2)
    = written (writer w) ++ [p]
  ∧ logger (Write p StreamResponseWriter w).2
    = logger w ++ concat (streamLineLog <$> Split p (String "010" ""))
  ∧ ∀ reads,
      written (writer (copyBuffer StreamResponseWriter reads w).2)
      = written (writer w) ++ reads.
Proof.
  rewrite stream_Write_run. cbn [snd writer logger].
  split_and!; [done | apply written_Write | done |].
  intros reads. apply copyBuffer_stream.
Qed.

Lemma sentinel_not_blank (line : string) :
  TrimPrefix line "data: " = "[DONE]" → (String.length line =? 0)%nat = false.
Proof. by destruct line. Qed.

Lemma sentinel_streamLineLog (line : string) :
  TrimPrefix (TrimSpace line) "data: " = "[DONE]" →
  streamLineLog line = [LogStreamDone].
Proof.
  intros Hdone. unfold streamLineLog.
  rewrite (sentinel_not_blank _ Hdone). by rewrite Hdone.
Qed.

(** [Write] on a chunk given by its lines: the loop meets these lines. *)
Lemma stream_Write_chunk (lines : list string) (rw : streamResponseWriter)
    (w : World) :
  lines ≠ [] →
  lineFeedFree lines = true →
  Write (chunk lines) rw w
  = (rw, {| logger := logger w ++ concat (streamLineLog <$> lines);
            writer := Gin.Write (chunk lines) (writer w) |}).
Proof. intros Hne Hfree. by rewrite stream_Write_run, Split_chunk. Qed.

Lemma copyBuffer_stream_log (reads : list string) (w : World) :
  logger (copyBuffer StreamResponseWriter reads w).2
  = logger w ++ streamLog reads.
Proof.
  revert w. induction reads as [|p reads IH]; intros w.
  - simpl. by rewrite app_nil_r.
  - cbn [copyBuffer]. unfold bind. rewrite stream_Write_run, IH.
    cbn [logger]. unfold streamLog. cbn [fmap list_fmap concat].
    by rewrite <- app_assoc.
Qed.

Lemma streamLog_app (reads1 reads2 : list string) :
  streamLog (reads1 ++ reads2) = streamLog reads1 ++ streamLog reads2.
Proof. unfold streamLog. by rewrite fmap_app, concat_app. Qed.

(** C8, as the code has it.  Take a chunk handed to [Write] in one call,
    made of the lines [before], then [line], then [after].  When the
    payload of [line], trimmed and stripped of one [data: ], is the
    sentinel, the loop finds [line] among the lines of the chunk and logs
    for it the end of the stream and nothing else, whatever the JSON
    decoder would say of it; the lines before and after log what they log
    on their own, and the chunk goes to the client whole.  So it is
    when the chunk is one of the reads the relay copies: the end of the
    stream is logged in its place among the entries of the reads.  Lines
    are taken read by read: what a copy logs is what each read logs on
    its own. *)
Theorem sentinel_line_logs_completion (line : string)
    (before after : list string) (w : World) :
  lineFeedFree (before ++ line :: after) = true →
  TrimPrefix (TrimSpace line) "data: " = "[DONE]" →
  let p := chunk (before ++ line :: after) in
  let entries :=
    concat (streamLineLog <$> before)
    ++ LogStreamDone :: concat (streamLineLog <$> after) in
  Split p (String "010" "") = before ++ line :: after
  ∧ logger (Write p StreamResponseWriter w).2 = logger w ++ entries
  ∧ logStreamLine line w = (tt, addLogs w [LogStreamDone])
  ∧ written (writer (Write p StreamResponseWriter w).2)
    = written (writer w) ++ [p]
  ∧ (∀ reads1 reads2,
       logger (copyBuffer StreamResponseWriter (reads1 ++ p :: reads2) w).2
       = logger w ++ streamLog reads1 ++ entries ++ streamLog reads2)
  ∧ ∀ reads,
      logger (copyBuffer StreamResponseWriter reads w).2
      = logger w ++ streamLog reads.
Proof.
  intros Hfree Hdone p entries.
  assert (Hne : before ++ line :: after ≠ []) by (by destruct before).
  pose proof (sentinel_streamLineLog line Hdone) as Hlog.
  assert (Hlines : Split p (String "010" "") = before ++ line :: after)
    by (by apply Split_chunk).
  assert (Hentries : concat (streamLineLog <$> Split p (String "010" ""))
                     = entries).
  { rewrite Hlines, fmap_app, concat_app. cbn [fmap list_fmap concat].
    by rewrite Hlog. }
  split_and!.
  - done.
  - rewrite stream_Write_run. cbn [snd logger]. by rewrite Hentries.
  - by rewrite logStreamLine_run, Hlog.
  - rewrite stream_Write_run. cbn [snd writer]. apply written_Write.
  - intros reads1 reads2.
    rewrite copyBuffer_stream_log, streamLog_app. unfold streamLog at 2.
    cbn [fmap list_fmap concat]. by rewrite Hentries.
  - intros reads. apply copyBuffer_stream_log.
Qed.

(** C10. A line logs the end of the stream exactly when what is left of
    it after trimming white space is [[DONE]] or [data: [DONE]], that is
    when trimming and removing one leading [data: ] leaves [[DONE]].
    White space around either form is trimmed, so both are recognised
    with any ASCII padding (and, for one, between a no-break space and
    an ideographic space); [data:[DONE]], which lacks the space, and
    [data: data: [DONE]], which has the prefix twice, are not, and the
    first, being no JSON, logs a parse error.  This is what [Write] logs
    for each line of a chunk. *)
Theorem sentinel_recognition_is_prefix_exact :
  decode json "data:[DONE]" = None →
  (∀ line,
     streamLineLog line = [LogStreamDone]
     ↔ TrimSpace line = "[DONE]" ∨ TrimSpace line = "data: [DONE]")
  ∧ (∀ pad1 pad2,
       blank pad1 = true → blank pad2 = true →
       streamLineLog (pad1 +:+ "[DONE]" +:+ pad2) = [LogStreamDone]
       ∧ streamLineLog (pad1 +:+ "data: [DONE]" +:+ pad2) = [LogStreamDone]
       ∧ streamLineLog (pad1 +:+ "data:[DONE]" +:+ pad2)
         = [LogStreamParseError SyntaxError]
       ∧ streamLineLog (pad1 +:+ "data: data: [DONE]" +:+ pad2)
         ≠ [LogStreamDone])
  ∧ streamLineLog (Utf8.bytes [0xC2; 0xA0]%N +:+ "data: [DONE]"
                   +:+ Utf8.bytes [0xE3; 0x80; 0x80]%N)
    = [LogStreamDone]
  ∧ (∀ line w, logStreamLine line w = (tt, addLogs w (streamLineLog line)))
  ∧ (∀ before line after w,
       lineFeedFree (before ++ line :: after) = true →
       logger (Write (chunk (before ++ line :: after))
                 StreamResponseWriter w).2
       = logger w
         ++ concat (streamLineLog <$> before)
         ++ streamLineLog line
         ++ concat (streamLineLog <$> after)).
Proof.
  intros Hjson.
  assert (Hiff : ∀ line,
            streamLineLog line = [LogStreamDone]
            ↔ TrimSpace line = "[DONE]" ∨ TrimSpace line = "data: [DONE]").
  { intros line. rewrite <- sentinel_forms. split.
    - unfold streamLineLog.
      destruct (String.length (TrimSpace line) =? 0)%nat; [done |].
      destruct (String.eqb _ "[DONE]") eqn:Heq.
      + intros _. by apply String.eqb_eq.
      + by destruct (Unmarshal json _).
    - apply sentinel_streamLineLog. }
  split_and!.
  - exact Hiff.
  - intros pad1 pad2 Hpad1 Hpad2.
    destruct (TrimSpace_sentinel pad1 pad2 Hpad1 Hpad2)
      as (Hbare & Hdata & Hnospace & Htwice).
    split_and!.
    + apply Hiff. by left.
    + apply Hiff. by right.
    + unfold streamLineLog. rewrite Hnospace.
      change (TrimPrefix "data:[DONE]" "data: ") with "data:[DONE]".
      cbn [String.length Nat.eqb String.eqb Ascii.eqb Bool.eqb].
      unfold Unmarshal. by rewrite Hjson.
    + rewrite Hiff, Htwice. by intros [? | ?].
  - apply Hiff. right. by vm_compute.
  - apply logStreamLine_run.
  - intros before line after w Hfree.
    rewrite stream_Write_chunk by (done || by destruct before).
    cbn [snd logger]. rewrite fmap_app, concat_app.
    by cbn [fmap list_fmap concat].
Qed.

(** *** Headers on their way upstream *)

Lemma lookup_foldl_Del (keys : list string) (h : Header) (key : string) :
  key ∉ keys → foldl Del h keys !! key = h !! key.
Proof.
  revert h. induction keys as [|k keys IH]; intros h Hnot; [done |].
  apply not_elem_of_cons in Hnot as [Hne Hnot]. cbn [foldl].
  rewrite IH by done. unfold Del. by rewrite lookup_delete_ne.
Qed.

(** A header that is no hop-by-hop header and that no value of
    [Connection] names goes through [removeHopByHopHeaders]. *)
Lemma removeHopByHopHeaders_kept (h : Header) (key : string) :
  key ∉ Httputil.hopHeaders →
  (∀ f sf,
     f ∈ default [] (h !! "Connection") →
     sf ∈ Split f "," →
     Httputil.CanonicalMIMEHeaderKey (Httputil.TrimString sf) ≠ key) →
  Httputil.removeHopByHopHeaders h !! key = h !! key.
Proof.
  intros Hhop Hnamed. unfold Httputil.removeHopByHopHeaders.
  rewrite lookup_foldl_Del by done.
  remember (default [] (h !! "Connection")) as values eqn:Hvalues.
  clear Hvalues. revert h.
  induction values as [|f values IH]; intros h'; [done |].
  cbn [foldl]. rewrite IH by (intros f' sf Hf; apply Hnamed; by right).
  assert (Hpieces : ∀ sf, sf ∈ Split f "," →
            Httputil.CanonicalMIMEHeaderKey (Httputil.TrimString sf) ≠ key)
    by (intros sf; apply Hnamed; by left).
  clear IH Hnamed. revert h'.
  induction (Split f ",") as [|sf pieces IH]; intros h'; [done |].
  cbn [foldl]. rewrite IH by (intros sf' Hsf; apply Hpieces; by right).
  destruct (String.eqb _ ""); [done |].
  unfold Httputil.DelKey, Del. rewrite lookup_delete_ne; [done |].
  apply Hpieces. by left.
Qed.

(** And so it reaches the transport, unless it is one of the headers
    [ServeHTTP] sets itself. *)
Lemma outbound_header_kept (clientIP : option string)
    (req outreq sent : Request) (key : string) :
  Httputil.outbound clientIP req outreq = Some sent →
  key ∉ Httputil.hopHeaders →
  key ∉ ["X-Forwarded-For"; "User-Agent"] →
  (∀ f sf,
     f ∈ default [] (ReqHeader outreq !! "Connection") →
     sf ∈ Split f "," →
     Httputil.CanonicalMIMEHeaderKey (Httputil.TrimString sf) ≠ key) →
  ReqHeader sent !! key = ReqHeader outreq !! key.
Proof.
  intros Hsent Hhop Hset Hnamed. unfold Httputil.outbound in Hsent.
  destruct (negb _); [done |]. apply (inj Some) in Hsent. subst.
  cbn [ReqHeader].
  apply not_elem_of_cons in Hset as [Hxff Hset].
  apply not_elem_of_cons in Hset as [Hua _].
  assert (Hte : key ≠ "Te") by (intros ->; apply Hhop; set_solver).
  assert (Hconn : key ≠ "Connection") by (intros ->; apply Hhop; set_solver).
  assert (Hup : key ≠ "Upgrade") by (intros ->; apply Hhop; set_solver).
  rewrite <- (removeHopByHopHeaders_kept (ReqHeader outreq) key) by done.
  set (h0 := Httputil.removeHopByHopHeaders (ReqHeader outreq)).
  set (h1 := if Httputil.HeaderValuesContainsToken _ _ then _ else h0).
  assert (H1 : h1 !! key = h0 !! key).
  { unfold h1. destruct (Httputil.HeaderValuesContainsToken _ _); [| done].
    unfold Set_. by rewrite lookup_insert_ne. }
  set (h2 := if negb (String.eqb _ "") then _ else h1).
  assert (H2 : h2 !! key = h1 !! key).
  { unfold h2. destruct (negb _); [| done].
    unfold Set_. by rewrite !lookup_insert_ne. }
  set (h3 := match clientIP with Some _ => _ | None => h2 end).
  assert (H3 : h3 !! key = h2 !! key).
  { unfold h3. destruct clientIP as [ip|]; [| done].
    destruct (h2 !! "X-Forwarded-For") as [[|v prior]|];
      unfold Set_; by rewrite ?lookup_insert_ne. }
  rewrite <- H1, <- H2, <- H3.
  destruct (h3 !! "User-Agent"); [done |].
  unfold Set_. by rewrite lookup_insert_ne.
Qed.

(** *** The interceptor *)

(** The Director puts on the outbound request the inbound
    [Authorization] value when there is a non-empty one, and [Bearer ]
    followed by the configured key when the header is absent or empty. *)
Lemma director_sets_authorization (inbound req : Request) :
  (Get (ReqHeader inbound) "Authorization" ≠ "" →
   Get (ReqHeader (proxyDirector inbound req)) "Authorization"
   = Get (ReqHeader inbound) "Authorization")
  ∧ (Get (ReqHeader inbound) "Authorization" = "" →
     Get (ReqHeader (proxyDirector inbound req)) "Authorization"
     = "Bearer " +:+ OpenAIAPIKey config)
  ∧ (ReqHeader inbound !! "Authorization" = None →
     Get (ReqHeader (proxyDirector inbound req)) "Authorization"
     = "Bearer " +:+ OpenAIAPIKey config).
Proof.
  assert (Hset : ∀ h v, Get (Set_ h "Authorization" v) "Authorization" = v).
  { intros h v. unfold Get, Set_. by rewrite lookup_insert_eq. }
  unfold proxyDirector. cbn [ReqHeader]. split_and!.
  - intros Hne. apply String.eqb_neq in Hne. rewrite Hne. apply Hset.
  - intros ->. apply Hset.
  - intros Habs.
    assert (Get (ReqHeader inbound) "Authorization" = "") as ->
      by (unfold Get; by rewrite Habs).
    apply Hset.
Qed.

(** What the Director sets reaches the transport when no value of the
    [Connection] header, as the default director leaves it, names
    [Authorization]: the library removes the headers named there after
    the Director has returned. *)
Lemma authorization_sent_upstream (clientIP : option string)
    (inbound req sent : Request) :
  Httputil.outbound clientIP req (proxyDirector inbound req) = Some sent →
  (∀ f sf,
     f ∈ default [] (ReqHeader (director req) !! "Connection") →
     sf ∈ Split f "," →
     Httputil.CanonicalMIMEHeaderKey (Httputil.TrimString sf)
     ≠ "Authorization") →
  Get (ReqHeader sent) "Authorization"
  = if String.eqb (Get (ReqHeader inbound) "Authorization") ""
    then "Bearer " +:+ OpenAIAPIKey config
    else Get (ReqHeader inbound) "Authorization".
Proof.
  intros Hsent Hnamed.
  assert (Hkept : ReqHeader sent !! "Authorization"
                  = ReqHeader (proxyDirector inbound req) !! "Authorization").
  { apply (outbound_header_kept clientIP req _ _ _ Hsent).
    - unfold Httputil.hopHeaders. not_listed.
    - not_listed.
    - intros f sf Hf. apply Hnamed. revert Hf.
      unfold proxyDirector. cbn [ReqHeader].
      destruct (negb _); unfold Set_; by rewrite lookup_insert_ne. }
  unfold Get at 1. rewrite Hkept.
  destruct (director_sets_authorization inbound req)
    as (Huser & Hdefault & _).
  fold (Get (ReqHeader (proxyDirector inbound req)) "Authorization").
  destruct (String.eqb _ "") eqn:Hkey.
  - apply Hdefault. by apply String.eqb_eq.
  - apply Huser. by apply String.eqb_neq.
Qed.

(** *** The buffered relay *)

Lemma concat_cons (x : string) (xs : list string) :
  String.concat "" (x :: xs) = x +:+ String.concat "" xs.
Proof. destruct xs; simpl; [by rewrite append_nil_r | done]. Qed.

Lemma concat_bufferReads (size room : nat) (data : string) :
  String.concat "" (bufferReads size room data) = data.
Proof.
  revert room. induction data as [|c data IH]; intros room; [done |].
  cbn [bufferReads]. destruct (room <=? 1)%nat.
  - by rewrite concat_cons, IH.
  - specialize (IH (room - 1)).
    destruct (bufferReads size (room - 1) data) as [|h t].
    + simpl in *. by rewrite <- IH.
    + rewrite concat_cons in *. by rewrite <- IH.
Qed.

(** The copy into a [responseBodyWriter]: the buffer takes the reads, and
    so does the client. *)
Lemma copyBuffer_body (reads : list string) (rw : responseBodyWriter)
    (w : World) :
  body (copyBuffer rw reads w).1 = body rw +:+ String.concat "" reads
  ∧ statusCode (copyBuffer rw reads w).1 = statusCode rw
  ∧ written (writer (copyBuffer rw reads w).2) = written (writer w) ++ reads
  ∧ logger (copyBuffer rw reads w).2 = logger w.
Proof.
  revert rw w. induction reads as [|chunk reads IH]; intros rw w.
  - simpl. by rewrite append_nil_r, app_nil_r.
  - cbn [copyBuffer]. unfold bind.
    cbn [Write responseBodyWriter_ResponseWriter]. unfold bind, onWriter, ret.
    destruct (IH {| body := body rw +:+ chunk; statusCode := statusCode rw |}
                 {| logger := logger w;
                    writer := Gin.Write chunk (writer w) |})
      as (Hbody & Hcode & Hwritten & Hlog).
    rewrite Hbody, Hcode, Hwritten, Hlog. cbn [body statusCode writer logger].
    by rewrite written_Write, <- app_assoc, concat_cons, append_assoc.
Qed.

Lemma logReply_writer (data : string) (w : World) :
  writer (logReply data w).2 = writer w.
Proof.
  unfold logReply.
  destruct (Unmarshal json data) as [response|err]; [| done].
  destruct (index response "choices") as [[| | | |[|[| | | | |choice] ?]|]|];
    try done.
  destruct (choice !! "message") as [[| | | | |message]|]; try done.
  by destruct (message !! "content") as [[| | |content| |]|].
Qed.

(** Whenever the upstream answers with a body the status admits, the
    client's writer is written to by the copy of the response and then
    once more, with the whole body, by [c.Data]. *)
Lemma buffered_relay_written (req : Request) (proxy : ReverseProxy)
    (res : Response) (w : World) :
  ModifyResponse proxy = logResponse →
  RoundTrip (Director proxy req) = Ok res →
  RespBodyErr res = None →
  Get (Del (Del (Del (RespHeader res) "Access-Control-Allow-Origin")
              "Access-Control-Allow-Methods")
         "Access-Control-Allow-Headers") "Content-Type"
  ≠ "text/event-stream" →
  Gin.bodyAllowedForStatus (StatusCode res) = true →
  written (writer (handleNonStreamRequest req proxy w).2)
  = written (writer w)
    ++ bufferReads copyBufferSize copyBufferSize
         (String.concat "" (RespBody res))
    ++ [String.concat "" (RespBody res)].
Proof.
  intros Hmodify Htrip Hread Htype Hallowed.
  apply String.eqb_neq in Htype.
  unfold handleNonStreamRequest, ServeHTTP. rewrite Htrip, Hmodify.
  unfold logResponse. rewrite Htype, Hread.
  unfold bind, Printf, ret, onWriter, getWriter.
  cbn [fst snd StatusCode RespHeader RespBody WriteHeader
       responseBodyWriter_ResponseWriter body statusCode writer logger].
  unfold bind, ret, onWriter.
  cbn [fst snd body statusCode writer logger].
  match goal with
  | |- context [@copyBuffer _ _ ?rw ?reads ?w0] =>
      destruct (copyBuffer_body reads rw w0) as (Hbody & Hcode & Hwritten & _);
      destruct (@copyBuffer _ _ rw reads w0) as [rw' w']
  end.
  cbn [fst snd body statusCode writer logger] in *.
  rewrite concat_bufferReads in Hbody.
  change ("" +:+ String.concat "" (RespBody res))
    with (String.concat "" (RespBody res)) in Hbody.
  match goal with
  | |- context [logReply ?d ?w0] =>
      pose proof (logReply_writer d w0) as Hreply;
      destruct (logReply d w0) as [[] w'']
  end.
  cbn [snd writer] in Hreply.
  unfold Gin.Data, Gin.Status, bind, onWriter. rewrite Hcode, Hallowed.
  cbn [fst snd writer logger]. rewrite written_Write, Hreply, Hbody.
  assert (Hhead : ∀ f code c,
             written (Gin.withHeader f (Gin.WriteHeader code c)) = written c).
  { intros f code c. unfold Gin.withHeader, Gin.WriteHeader.
    by destruct (_ && _ && _). }
  rewrite Hhead, Hwritten. unfold Gin.withHeader, Gin.WriteHeader.
  destruct (_ && _ && _); cbn [written]; by rewrite <- app_assoc.
Qed.

(** ** Further properties of the handlers *)

(** *** [logResponse] *)

Lemma logResponse_header (resp : Response) (w : World) (res' : Response) :
  (logResponse resp w).1 = Ok res' →
  RespHeader res'
  = Del (Del (Del (RespHeader resp) "Access-Control-Allow-Origin")
           "Access-Control-Allow-Methods") "Access-Control-Allow-Headers"
  ∧ StatusCode res' = StatusCode resp
  ∧ String.concat "" (RespBody res') = String.concat "" (RespBody resp).
Proof.
  unfold logResponse. destruct (String.eqb _ _).
  - intros [= <-]. done.
  - destruct (RespBodyErr resp) as [err|]; [done |].
    intros [= <-]. cbn [RespHeader StatusCode RespBody].
    by rewrite concat_bufferReads.
Qed.

(** X1. When [logResponse] lets a response through, the three
    cross-origin headers are gone from it, every other header is as the
    upstream sent it, and the status and the bytes of the body are
    unchanged; the client's writer is not touched. *)
Theorem logResponse_strips_only_cors (resp : Response) (w : World)
    (res' : Response) :
  (logResponse resp w).1 = Ok res' →
  (∀ key, key ∈ corsHeaders → RespHeader res' !! key = None)
  ∧ (∀ key, key ∉ corsHeaders → RespHeader res' !! key = RespHeader resp !! key)
  ∧ StatusCode res' = StatusCode resp
  ∧ String.concat "" (RespBody res') = String.concat "" (RespBody resp)
  ∧ writer (logResponse resp w).2 = writer w.
Proof.
  intros Hok. destruct (logResponse_header _ _ _ Hok) as (-> & -> & ->).
  unfold Del, corsHeaders. split_and!; try done.
  - intros key Hkey. repeat (apply elem_of_cons in Hkey as [-> | Hkey]).
    + rewrite lookup_delete_ne by done. rewrite lookup_delete_ne by done.
      apply lookup_delete_eq.
    + rewrite lookup_delete_ne by done. apply lookup_delete_eq.
    + apply lookup_delete_eq.
    + by apply elem_of_nil in Hkey.
  - intros key Hkey. rewrite !not_elem_of_cons in Hkey.
    destruct Hkey as (? & ? & ? & _). by rewrite !lookup_delete_ne.
  - clear Hok. unfold logResponse. destruct (String.eqb _ _); [done |].
    by destruct (RespBodyErr resp).
Qed.

(** X2. [logResponse] fails exactly when the response is not an event
    stream and reading its body fails; it then returns that read error
    and logs it.  An event stream is never read, so it always passes,
    with its reads and a pending read failure left as they were. *)
Theorem logResponse_fails_on_unreadable_body (resp : Response) (w : World)
    (err : error) :
  let h := Del (Del (Del (RespHeader resp) "Access-Control-Allow-Origin")
                  "Access-Control-Allow-Methods")
             "Access-Control-Allow-Headers" in
  ((logResponse resp w).1 = Err err
   ↔ Get h "Content-Type" ≠ "text/event-stream" ∧ RespBodyErr resp = Some err)
  ∧ ((logResponse resp w).1 = Err err →
     (logResponse resp w).2 = addLogs w [LogReadResponseError err])
  ∧ (Get h "Content-Type" = "text/event-stream" →
     logResponse resp w
     = (Ok {| StatusCode := StatusCode resp; RespHeader := h;
              RespBody := RespBody resp; RespBodyErr := RespBodyErr resp |},
        addLogs w [LogStreamResponseStart (StatusCode resp)])).
Proof.
  intros h. unfold logResponse. fold h.
  destruct (String.eqb (Get h "Content-Type") "text/event-stream") eqn:Htype.
  - apply String.eqb_eq in Htype. split_and!; [| done | done].
    split; [done | intros [Hne _]; by destruct Hne].
  - apply String.eqb_neq in Htype.
    destruct (RespBodyErr resp) as [err'|].
    + split_and!; [| by intros [= ->] | done].
      split; [by intros [= ->] | by intros [_ [= ->]]].
    + split_and!; [| done | done]. split; [done | by intros [_ ?]].
Qed.

(** *** The prompt rewriter *)

Lemma rewriteRequest_logs (request : object float64) (w : World) :
  ∃ entries, (rewriteRequest request w).2 = addLogs w entries.
Proof.
  destruct request as [fields|]; [| exists []; by rewrite addLogs_nil].
  destruct (fields !! "messages") as [[| | | |messages|]|] eqn:Hmsgs;
    try (exists []; rewrite rewriteRequest_other, addLogs_nil; [done |];
         intros [l Hl]; simpl in Hl; congruence).
  eexists. by rewrite (rewriteRequest_chat _ _ _ Hmsgs).
Qed.

Lemma modifyRequestBody_logs (body : string) (w : World) :
  ∃ entries, (modifyRequestBody body w).2 = addLogs w entries.
Proof.
  unfold modifyRequestBody.
  destruct (Unmarshal json body) as [request|err]; [| by eexists].
  unfold bind. destruct (rewriteRequest_logs request w) as [entries Hlog].
  destruct (rewriteRequest request w) as [request' w']. simpl in Hlog.
  subst w'. destruct (Marshal json request') as [modifiedBody|err].
  - by exists entries.
  - exists (entries ++ [LogMarshalError err]).
    unfold bind, Printf, ret, addLogs. simpl. by rewrite app_assoc.
Qed.

Lemma rewriteRequest_uniform (request : object float64) :
  ∃ request' entries,
    ∀ w, rewriteRequest request w = (request', addLogs w entries).
Proof.
  destruct request as [fields|];
    [| exists None, []; intros w; by rewrite addLogs_nil].
  destruct (fields !! "messages") as [[| | | |messages|]|] eqn:Hmsgs;
    try (exists (Some fields), []; intros w;
         rewrite rewriteRequest_other, addLogs_nil; [done |];
         intros [l Hl]; simpl in Hl; congruence).
  eexists _, _. intros w. by rewrite (rewriteRequest_chat _ _ _ Hmsgs).
Qed.

Lemma modifyRequestBody_uniform (data : string) :
  ∃ out entries, ∀ w, modifyRequestBody data w = (out, addLogs w entries).
Proof.
  unfold modifyRequestBody.
  destruct (Unmarshal json data) as [request|err]; [| by eexists _, _].
  destruct (rewriteRequest_uniform request) as (request' & entries & Hrun).
  destruct (Marshal json request') as [modifiedBody|err] eqn:Hm.
  - exists modifiedBody, entries. intros w. unfold bind.
    by rewrite Hrun, Hm.
  - exists data, (entries ++ [LogMarshalError err]). intros w. unfold bind.
    rewrite Hrun, Hm. unfold bind, Printf, ret, addLogs. simpl.
    by rewrite app_assoc.
Qed.

(** X3. The rewriter only adds to the log: whatever the body, the
    client's writer is left as it was and no earlier log entry is lost.
    The body it returns is the inbound one unless both [Unmarshal] and
    [Marshal] succeed. *)
Theorem modifyRequestBody_only_logs (body : string) (w : World) :
  writer (modifyRequestBody body w).2 = writer w
  ∧ (∃ entries, logger (modifyRequestBody body w).2 = logger w ++ entries)
  ∧ ((modifyRequestBody body w).1 ≠ body →
     ∃ request request',
       Unmarshal json body = Ok request
       ∧ Marshal json request' = Ok (modifyRequestBody body w).1).
Proof.
  destruct (modifyRequestBody_logs body w) as [entries Hlog].
  rewrite Hlog. split_and!; [done | by exists entries |].
  clear. unfold modifyRequestBody.
  destruct (Unmarshal json body) as [request|err]; [| done].
  unfold bind. destruct (rewriteRequest request w) as [request' w'].
  destruct (Marshal json request') as [modifiedBody|err] eqn:Hm; [| done].
  intros _. by exists request, request'.
Qed.

(** X4. For a request with a [messages] array, the rewriter logs the
    original content of every message with a string content, and logs a
    rewritten content only for such a message whose content the table
    changed: an entry [LogModifiedPrompt c'] always comes from a message
    with content [c], with [c'] the rewriting of [c] and [c' ≠ c]. *)
Theorem modified_prompt_logged_only_when_changed
    (fields : gmap string (value float64)) (messages : list (value float64))
    (w : World) :
  fields !! "messages" = Some (VSlice messages) →
  ∃ entries,
    logger (rewriteRequest (Some fields) w).2 = logger w ++ entries
    ∧ (∀ i message content,
         messages !! i = Some (VMap message) →
         message !! "content" = Some (VString content) →
         LogOriginalPrompt content ∈ entries)
    ∧ (∀ content',
         LogModifiedPrompt content' ∈ entries →
         ∃ i message content,
           messages !! i = Some (VMap message)
           ∧ message !! "content" = Some (VString content)
           ∧ content'
             = applyModifications (rangeOrder i (PromptModifications config))
                 content
           ∧ content' ≠ content)
    ∧ ∀ entry, entry ∈ entries →
        (∃ content, entry = LogOriginalPrompt content)
        ∨ (∃ content, entry = LogModifiedPrompt content).
Proof.
  intros Hmsgs. exists (concat (imap messageLog messages)).
  rewrite (rewriteRequest_chat _ _ _ Hmsgs). cbn [snd addLogs logger].
  assert (Hin : ∀ entry, entry ∈ concat (imap messageLog messages)
                ↔ ∃ i msg, messages !! i = Some msg ∧ entry ∈ messageLog i msg).
  { intros entry. rewrite list_elem_of_In, in_concat. split.
    - intros (l & Hl & Hentry). apply list_elem_of_In in Hl, Hentry.
      apply elem_of_lookup_imap in Hl as (i & msg & -> & Hi). by exists i, msg.
    - intros (i & msg & Hi & Hentry). exists (messageLog i msg).
      rewrite <- !list_elem_of_In. split; [| done].
      apply elem_of_lookup_imap. by exists i, msg. }
  split_and!; [done | | |].
  - intros i message content Hi Hc. apply Hin. exists i, (VMap message).
    split; [done |]. unfold messageLog. rewrite Hc. by left.
  - intros content' (i & msg & Hi & Hentry)%Hin.
    unfold messageLog in Hentry. destruct msg as [| | | | |message];
      try by apply elem_of_nil in Hentry.
    destruct (message !! "content") as [[| | |content| |]|] eqn:Hc;
      try by apply elem_of_nil in Hentry.
    apply elem_of_cons in Hentry as [? | Hentry]; [done |].
    destruct (String.eqb _ content) eqn:Heq; simpl in Hentry;
      [by apply elem_of_nil in Hentry |].
    apply list_elem_of_singleton in Hentry as [= ->].
    apply String.eqb_neq in Heq. by exists i, message, content.
  - intros entry (i & msg & Hi & Hentry)%Hin.
    unfold messageLog in Hentry. destruct msg as [| | | | |message];
      try by apply elem_of_nil in Hentry.
    destruct (message !! "content") as [[| | |content| |]|] eqn:Hc;
      try by apply elem_of_nil in Hentry.
    apply elem_of_cons in Hentry as [-> | Hentry]; [left; by eexists |].
    destruct (negb _); simpl in Hentry; [| by apply elem_of_nil in Hentry].
    apply list_elem_of_singleton in Hentry as ->. right; by eexists.
Qed.

(** *** The early returns and the choice of a relay *)

Lemma isStreamRequest_spec (req : Request) :
  isStreamRequest req = true
  ↔ (∃ pre post, Path req = pre +:+ "/stream" +:+ post)
    ∨ (∃ rest, ReqHeader req !! "Accept" = Some ("text/event-stream" :: rest)).
Proof.
  unfold isStreamRequest. rewrite orb_true_iff, Contains_spec, String.eqb_eq.
  apply or_iff_compat_l. unfold Get. split.
  - destruct (ReqHeader req !! "Accept") as [[|v rest]|]; try done.
    intros ->. by exists rest.
  - by intros [rest ->].
Qed.

(** What [forwardedRequest] hands on and leaves behind. *)
Lemma forwardedRequest_run (req : Request) (w : World) :
  (∀ data, Body req = Some (Ok data) →
     forwardedRequest req w
     = ({| Method := Method req; Path := Path req; Host := Host req;
           ReqHeader := ReqHeader req;
           Body := Some (Ok (modifyRequestBody data w).1);
           ContentLength :=
             Z.of_nat (String.length (modifyRequestBody data w).1) |},
        addLogs (modifyRequestBody data w).2
          [LogRequest (Method req) (Path req) data]))
  ∧ ((∀ data, Body req ≠ Some (Ok data)) →
     forwardedRequest req w
     = (req, addLogs w [LogRequest (Method req) (Path req) ""])).
Proof.
  unfold forwardedRequest, bind. split.
  - intros data ->. by destruct (modifyRequestBody data w) as [modified w'].
  - intros Hnone. by destruct (Body req) as [[data|err]|];
      [destruct (Hnone data) | |].
Qed.

Lemma forwardedRequest_fields (req : Request) (w : World) :
  Method (forwardedRequest req w).1 = Method req
  ∧ Path (forwardedRequest req w).1 = Path req
  ∧ Host (forwardedRequest req w).1 = Host req
  ∧ ReqHeader (forwardedRequest req w).1 = ReqHeader req
  ∧ writer (forwardedRequest req w).2 = writer w.
Proof.
  destruct (forwardedRequest_run req w) as [Hsome Hnone].
  destruct (Body req) as [[data|err]|] eqn:Hbody.
  - rewrite (Hsome data eq_refl). cbn [fst snd Method Path Host ReqHeader].
    destruct (modifyRequestBody_logs data w) as [entries ->]. done.
  - by rewrite Hnone.
  - by rewrite Hnone.
Qed.

(** The handler past its first two log entries, for a body that could be
    read: the OPTIONS check, then one of the two relays, run on what
    [forwardedRequest] hands on. *)
Lemma handleProxy_run (req : Request) (w : World) :
  (∀ err, Body req ≠ Some (Err err)) →
  handleProxy req w
  = let proxy := {| Director := proxyDirector req;
                    ModifyResponse := logResponse |} in
    let run :=
      forwardedRequest req
        (addLogs w [LogReceived (Method req) (Path req);
                    LogRequestHeader (ReqHeader req)]) in
    if String.eqb (Method req) "OPTIONS" then
      (Preflight, {| logger := logger run.2;
                     writer := Gin.WriteHeader StatusOK (writer run.2) |})
    else if isStreamRequest req then
      (StreamRelay, (handleStreamRequest run.1 proxy run.2).2)
    else
      (BufferedRelay, (handleNonStreamRequest run.1 proxy run.2).2).
Proof.
  intros Hread. unfold handleProxy, forwardedRequest, bind, Printf, addLogs.
  cbn [fst snd logger writer]. rewrite <- app_assoc.
  change ([LogReceived (Method req) (Path req)]
          ++ [LogRequestHeader (ReqHeader req)])
    with [LogReceived (Method req) (Path req);
          LogRequestHeader (ReqHeader req)].
  destruct (Body req) as [[data|err]|]; [| by destruct (Hread err) |].
  - destruct (modifyRequestBody data _) as [modified w1].
    cbn [ret fst snd Method Path]. unfold isStreamRequest at 1.
    cbn [Path ReqHeader]. fold (isStreamRequest req).
    destruct (String.eqb (Method req) "OPTIONS"); [done |].
    destruct (isStreamRequest req).
    + by destruct (handleStreamRequest _ _ _).
    + by destruct (handleNonStreamRequest _ _ _).
  - cbn [ret fst snd].
    destruct (String.eqb (Method req) "OPTIONS"); [done |].
    destruct (isStreamRequest req).
    + by destruct (handleStreamRequest _ _ _).
    + by destruct (handleNonStreamRequest _ _ _).
Qed.

(** C9, as the code has it.  A request whose body cannot be read is
    answered 500; one whose body can be read and whose method is OPTIONS
    has status 200 recorded for it; neither reaches a relay.  Every other
    request is run through exactly one relay, on the request
    [forwardedRequest] hands on (the inbound method, path, host and
    header, the rewritten body): the streaming relay when its path holds
    [/stream] somewhere or the value [Header.Get] returns for [Accept],
    the first one, is [text/event-stream], and the buffered relay
    otherwise.  What the handler leaves behind is what that relay leaves
    behind. *)
Theorem relay_selection (req : Request) (w : World) :
  let proxy := {| Director := proxyDirector req;
                  ModifyResponse := logResponse |} in
  let w1 := addLogs w [LogReceived (Method req) (Path req);
                       LogRequestHeader (ReqHeader req)] in
  let req' := (forwardedRequest req w1).1 in
  let w2 := (forwardedRequest req w1).2 in
  (∀ err, Body req = Some (Err err) →
     handleProxy req w
     = (BodyUnreadable,
        (Gin.Data StatusInternalServerError "application/json; charset=utf-8"
           internalErrorJSON (addLogs w1 [LogReadBodyError err])).2))
  ∧ ((∀ err, Body req ≠ Some (Err err)) →
     (Method req = "OPTIONS" →
      handleProxy req w
      = (Preflight, {| logger := logger w2;
                       writer := Gin.WriteHeader StatusOK (writer w) |}))
     ∧ (Method req ≠ "OPTIONS" →
        isStreamRequest req = true →
        handleProxy req w
        = (StreamRelay, (handleStreamRequest req' proxy w2).2))
     ∧ (Method req ≠ "OPTIONS" →
        isStreamRequest req = false →
        handleProxy req w
        = (BufferedRelay, (handleNonStreamRequest req' proxy w2).2)))
  ∧ (isStreamRequest req = true
     ↔ (∃ pre post, Path req = pre +:+ "/stream" +:+ post)
       ∨ (∃ rest,
            ReqHeader req !! "Accept" = Some ("text/event-stream" :: rest)))
  ∧ (Method req' = Method req ∧ Path req' = Path req
     ∧ Host req' = Host req ∧ ReqHeader req' = ReqHeader req
     ∧ writer w2 = writer w)
  ∧ (∀ data, Body req = Some (Ok data) →
       Body req' = Some (Ok (modifyRequestBody data w1).1)
       ∧ ContentLength req'
         = Z.of_nat (String.length (modifyRequestBody data w1).1)).
Proof.
  intros proxy w1 req' w2.
  destruct (forwardedRequest_fields req w1) as (Hm & Hp & Hh & Hhd & Hw).
  refine (conj _ (conj _ (conj _ (conj _ _)))).
  - intros err Hbody. unfold handleProxy, bind, Printf. rewrite Hbody.
    cbn [fst snd logger writer]. unfold w1, addLogs. cbn [logger writer].
    rewrite <- !app_assoc.
    by destruct (Gin.Data _ _ _ _) as [[] w'].
  - intros Hread. rewrite (handleProxy_run req w Hread). cbn zeta.
    fold w1. fold req'. fold w2. fold proxy. split_and!.
    + intros ->. cbn [String.eqb Ascii.eqb Bool.eqb]. unfold w2.
      by rewrite Hw.
    + intros Hmethod%String.eqb_neq ->. by rewrite Hmethod.
    + intros Hmethod%String.eqb_neq ->. by rewrite Hmethod.
  - apply isStreamRequest_spec.
  - done.
  - intros data Hbody. unfold req'.
    by rewrite (proj1 (forwardedRequest_run req w1) data Hbody).
Qed.

(** *** The client's writer *)

Lemma Write_fields (p : string) (c : client) :
  header (Gin.Write p c) = header c
  ∧ status (Gin.Write p c) = status c
  ∧ head (Gin.Write p c) = Some (default (status c, header c) (head c)).
Proof.
  unfold Gin.Write, Gin.WriteHeaderNow, Gin.Written.
  destruct (head c) as [[code h]|] eqn:Hhead.
  - rewrite bool_decide_true by eauto. simpl. by rewrite Hhead.
  - by rewrite bool_decide_false by (by intros [? ?]).
Qed.

Lemma foldl_Write_fields (reads : list string) (c : client) :
  header (foldl (λ c chunk, Gin.Write chunk c) c reads) = header c
  ∧ status (foldl (λ c chunk, Gin.Write chunk c) c reads) = status c
  ∧ written (foldl (λ c chunk, Gin.Write chunk c) c reads)
    = written c ++ reads
  ∧ head (foldl (λ c chunk, Gin.Write chunk c) c reads)
    = match reads with
      | [] => head c
      | _ :: _ => Some (default (status c, header c) (head c))
      end.
Proof.
  revert c. induction reads as [|chunk reads IH]; intros c.
  - simpl. by rewrite app_nil_r.
  - cbn [foldl]. destruct (IH (Gin.Write chunk c)) as (-> & -> & -> & ->).
    destruct (Write_fields chunk c) as (-> & -> & Hhead).
    rewrite written_Write, <- app_assoc. split_and!; try done.
    destruct reads; rewrite Hhead; [done |]. simpl.
    by destruct (head c).
Qed.


Lemma copyBuffer_body_writer (reads : list string) (rw : responseBodyWriter)
    (w : World) :
  writer (copyBuffer rw reads w).2
  = foldl (λ c chunk, Gin.Write chunk c) (writer w) reads.
Proof.
  revert rw w. induction reads as [|chunk reads IH]; intros rw w; [done |].
  cbn [copyBuffer foldl]. unfold bind.
  cbn [Write responseBodyWriter_ResponseWriter]. unfold bind, onWriter, ret.
  by rewrite IH.
Qed.

Lemma concat_app (a b : list string) :
  String.concat "" (a ++ b) = String.concat "" a +:+ String.concat "" b.
Proof.
  induction a as [|x a IH]; [done |].
  change ((x :: a) ++ b) with (x :: (a ++ b)).
  by rewrite !concat_cons, IH, append_assoc.
Qed.

(** X5. The write-through capture of [responseBodyWriter] keeps step
    with the client: if the buffer holds the bytes written to the client
    so far, it still does after any run of writes, and each write reaches
    the client as it was given.  [WriteHeader] records the code and
    leaves the buffer alone. *)
Theorem capture_keeps_step_with_client (reads : list string)
    (rw : responseBodyWriter) (w : World) (code : Z) :
  body rw = String.concat "" (written (writer w)) →
  body (copyBuffer rw reads w).1
  = String.concat "" (written (writer (copyBuffer rw reads w).2))
  ∧ written (writer (copyBuffer rw reads w).2) = written (writer w) ++ reads
  ∧ statusCode (copyBuffer rw reads w).1 = statusCode rw
  ∧ statusCode (WriteHeader code rw w).1 = code
  ∧ body (WriteHeader code rw w).1 = body rw
  ∧ written (writer (WriteHeader code rw w).2) = written (writer w).
Proof.
  intros Hinv.
  destruct (copyBuffer_body reads rw w) as (Hbody & Hcode & Hwritten & _).
  rewrite Hbody, Hcode, Hwritten, concat_app, Hinv.
  split_and!; try done.
  cbn [WriteHeader responseBodyWriter_ResponseWriter].
  unfold bind, onWriter, ret, Gin.WriteHeader. cbn [snd writer].
  by destruct (_ && _ && _).
Qed.

(** X6. [logReply] never touches the client and logs at most one entry:
    the parse error when the body does not decode; the reply of the
    first choice when [choices] is an array whose first element is an
    object whose [message] is an object with a string [content]; and
    nothing at all in every other case (no [choices], [choices] that is
    no array or is empty, a first choice or a [message] that is no
    object, a [content] that is no string). *)
Theorem logReply_logs_first_choice (data : string) (w : World) :
  ∃ entries,
    logReply data w = (tt, addLogs w entries)
    ∧ length entries ≤ 1
    ∧ (∀ err, Unmarshal json data = Err err →
              entries = [LogReplyParseError err])
    ∧ (∀ response, Unmarshal json data = Ok response →
         (∀ choice rest message content,
            index response "choices" = Some (VSlice (VMap choice :: rest)) →
            choice !! "message" = Some (VMap message) →
            message !! "content" = Some (VString content) →
            entries = [LogAIReply content])
         ∧ ((¬ ∃ choice rest message content,
                index response "choices"
                = Some (VSlice (VMap choice :: rest))
                ∧ choice !! "message" = Some (VMap message)
                ∧ message !! "content" = Some (VString content)) →
            entries = [])
         ∧ ∀ content,
             LogAIReply content ∈ entries
             ↔ ∃ choice rest message,
                 index response "choices" = Some (VSlice (VMap choice :: rest))
                 ∧ choice !! "message" = Some (VMap message)
                 ∧ message !! "content" = Some (VString content)).
Proof.
  unfold logReply.
  destruct (Unmarshal json data) as [response|err].
  2:{ exists [LogReplyParseError err]. split_and!; try done.
      by intros err' [= ->]. }
  assert (Hnone :
            (∀ choice rest message content,
               index response "choices" = Some (VSlice (VMap choice :: rest)) →
               choice !! "message" = Some (VMap message) →
               message !! "content" = Some (VString content) → False) →
            ∃ entries : list logEntry,
              (tt, w) = (tt, addLogs w entries)
              ∧ length entries ≤ 1
              ∧ (∀ err, Ok response = Err err →
                        entries = [LogReplyParseError err])
              ∧ (∀ response0, Ok response = Ok response0 →
                   (∀ choice rest message content,
                      index response0 "choices"
                      = Some (VSlice (VMap choice :: rest)) →
                      choice !! "message" = Some (VMap message) →
                      message !! "content" = Some (VString content) →
                      entries = [LogAIReply content])
                   ∧ ((¬ ∃ choice rest message content,
                          index response0 "choices"
                          = Some (VSlice (VMap choice :: rest))
                          ∧ choice !! "message" = Some (VMap message)
                          ∧ message !! "content" = Some (VString content)) →
                      entries = [])
                   ∧ ∀ content,
                       LogAIReply content ∈ entries
                       ↔ ∃ choice rest message,
                           index response0 "choices"
                           = Some (VSlice (VMap choice :: rest))
                           ∧ choice !! "message" = Some (VMap message)
                           ∧ message !! "content" = Some (VString content))).
  { intros Hno. exists []. rewrite addLogs_nil.
    split_and!; [done | simpl; lia | done |].
    intros ? [= <-]. split_and!; [| done |].
    - intros choice rest message content H1 H2 H3.
      by destruct (Hno _ _ _ _ H1 H2 H3).
    - intros content. split; [by intros ?%elem_of_nil |].
      intros (choice & rest & message & H1 & H2 & H3).
      by destruct (Hno _ _ _ _ H1 H2 H3). }
  destruct (index response "choices")
    as [[| | | |[|[| | | | |choice] rest]|]|] eqn:Hchoices;
    try (apply Hnone; intros; congruence).
  destruct (choice !! "message") as [[| | | | |message]|] eqn:Hmessage;
    try (apply Hnone; intros; simplify_eq; congruence).
  destruct (message !! "content") as [[| | |content| |]|] eqn:Hcontent;
    try (apply Hnone; intros; simplify_eq; congruence).
  exists [LogAIReply content]. split_and!; [done | simpl; lia | done |].
  intros ? [= <-]. rewrite Hchoices. split_and!.
  - intros choice' rest' message' content' [= <- <-] H2 H3. by simplify_eq.
  - intros Hno. destruct Hno. by exists choice, rest, message, content.
  - intros content'. rewrite list_elem_of_singleton. split.
    + intros [= ->]. by exists choice, rest, message.
    + intros (choice' & rest' & message' & [= <- <-] & H2 & H3).
      by simplify_eq.
Qed.

(** *** [handleProxy] before the relays *)

Lemma WriteHeader_fields (code : Z) (c : client) :
  header (Gin.WriteHeader code c) = header c
  ∧ head (Gin.WriteHeader code c) = head c
  ∧ written (Gin.WriteHeader code c) = written c
  ∧ (head c = None → (0 < code)%Z → status (Gin.WriteHeader code c) = code).
Proof.
  unfold Gin.WriteHeader, Gin.Written.
  destruct (head c) as [sent|] eqn:Hhead.
  - rewrite bool_decide_true by eauto. rewrite andb_false_r. done.
  - rewrite bool_decide_false by (by intros [? ?]). rewrite andb_true_r.
    destruct (0 <? code)%Z eqn:Hpos; simpl.
    + destruct (status c =? code)%Z eqn:Heq; simpl; split_and!; try done.
      intros _ _. by apply Z.eqb_eq.
    + split_and!; try done. intros _ Hlt. apply Z.ltb_ge in Hpos. lia.
Qed.

(** X7. A request whose body cannot be read is answered at once: the
    read error is logged after the two entries for the request, the JSON
    error object is written to the client and, on a connection whose
    head has not gone out, the status sent is 500.  The rewriter is not
    run and no relay is entered. *)
Theorem unreadable_body_answers_500 (req : Request) (err : error)
    (w : World) :
  Body req = Some (Err err) →
  (handleProxy req w).1 = BodyUnreadable
  ∧ logger (handleProxy req w).2
    = logger w ++ [LogReceived (Method req) (Path req);
                   LogRequestHeader (ReqHeader req);
                   LogReadBodyError err]
  ∧ written (writer (handleProxy req w).2)
    = written (writer w) ++ [internalErrorJSON]
  ∧ (head (writer w) = None →
     ∃ h, head (writer (handleProxy req w).2)
          = Some (StatusInternalServerError, h)).
Proof.
  intros Hbody. unfold handleProxy. rewrite Hbody.
  unfold bind, Printf, ret, Gin.Data, Gin.Status, onWriter, bind.
  cbn [fst snd logger writer Gin.bodyAllowedForStatus].
  change (Gin.bodyAllowedForStatus StatusInternalServerError) with true.
  cbn [fst snd logger writer].
  split_and!; [done | by rewrite <- !app_assoc | |].
  - rewrite written_Write. unfold Gin.withHeader. cbn [written].
    by destruct (WriteHeader_fields StatusInternalServerError (writer w))
      as (_ & _ & -> & _).
  - intros Hhead.
    destruct (Write_fields internalErrorJSON
                (Gin.withHeader
                   (Gin.writeContentType "application/json; charset=utf-8")
                   (Gin.WriteHeader StatusInternalServerError (writer w))))
      as (_ & _ & ->).
    unfold Gin.withHeader. cbn [head status header].
    destruct (WriteHeader_fields StatusInternalServerError (writer w))
      as (_ & -> & _ & Hstatus).
    rewrite Hhead, Hstatus by done. by eexists.
Qed.

(** X8. An OPTIONS request whose body can be read is answered without a
    byte of body: the handler records status 200 on the client's writer
    and does nothing else to it.  The body has still gone through the
    rewriter: between the two entries for the request and the request
    entry, which carries the inbound body, the log holds exactly the
    entries [modifyRequestBody] logs for that body (none when the request
    has no body). *)
Theorem preflight_records_200 (req : Request) (w : World) :
  Method req = "OPTIONS" →
  (∀ err, Body req ≠ Some (Err err)) →
  (handleProxy req w).1 = Preflight
  ∧ writer (handleProxy req w).2 = Gin.WriteHeader StatusOK (writer w)
  ∧ written (writer (handleProxy req w).2) = written (writer w)
  ∧ head (writer (handleProxy req w).2) = head (writer w)
  ∧ ∃ entries,
      logger (handleProxy req w).2
      = logger w
        ++ [LogReceived (Method req) (Path req);
            LogRequestHeader (ReqHeader req)]
        ++ entries
        ++ [LogRequest (Method req) (Path req)
              (match Body req with Some (Ok data) => data | _ => "" end)]
      ∧ match Body req with
        | Some (Ok data) =>
            ∀ w0, (modifyRequestBody data w0).2 = addLogs w0 entries
        | _ => entries = []
        end.
Proof.
  intros Hmethod Hread. rewrite (handleProxy_run req w Hread). cbn zeta.
  assert (String.eqb (Method req) "OPTIONS" = true) as ->
    by (by rewrite Hmethod).
  cbn [fst snd writer logger].
  set (w1 := addLogs w _).
  destruct (forwardedRequest_fields req w1) as (_ & _ & _ & _ & ->).
  change (writer w1) with (writer w).
  destruct (WriteHeader_fields StatusOK (writer w)) as (_ & -> & -> & _).
  split_and!; try done.
  destruct (forwardedRequest_run req w1) as [Hsome Hnone].
  destruct (Body req) as [[data|err]|] eqn:Hbody.
  - rewrite (Hsome data eq_refl). cbn [snd].
    destruct (modifyRequestBody_uniform data) as (out & entries & Hrun).
    exists entries. rewrite Hrun. cbn [snd addLogs logger w1].
    split; [by rewrite <- !app_assoc |]. intros w0. by rewrite Hrun.
  - by destruct (Hread err).
  - rewrite Hnone by done. exists []. cbn [snd addLogs logger w1].
    split; [by rewrite <- !app_assoc | done].
Qed.

(** *** The relays *)


Lemma Get_copyHeader_absent (dst src : Header) (key : string) :
  dst !! key = None → Get (copyHeader dst src) key = Get src key.
Proof.
  intros Hdst. unfold Get, copyHeader. rewrite lookup_union_with, Hdst.
  by destruct (src !! key).
Qed.




Lemma handleNonStreamRequest_failed (req : Request) (proxy : ReverseProxy)
    (err : error) (w : World) :
  RoundTrip (Director proxy req) = Err err →
  writer (handleNonStreamRequest req proxy w).2
  = Gin.Write ""
      (Gin.withHeader
         (Gin.writeContentType
            (Get (header (Gin.WriteHeader StatusBadGateway (writer w)))
               "Content-Type"))
         (Gin.WriteHeader StatusBadGateway
            (Gin.WriteHeader StatusBadGateway (writer w)))).
Proof.
  intros Htrip. unfold handleNonStreamRequest, ServeHTTP. rewrite Htrip.
  cbn [WriteHeader responseBodyWriter_ResponseWriter].
  unfold bind, onWriter, ret, Printf, getWriter.
  cbn [fst snd body statusCode writer logger].
  match goal with
  | |- context [logReply ?d ?w0] =>
      pose proof (logReply_writer d w0) as Hreply;
      destruct (logReply d w0) as [[] w']
  end.
  cbn [snd writer] in Hreply.
  unfold Gin.Data, Gin.Status, bind, onWriter.
  change (Gin.bodyAllowedForStatus StatusBadGateway) with true.
  cbn [fst snd writer logger]. by rewrite Hreply.
Qed.

(** X10. When the round trip to the upstream fails, both relays answer
    502 and no byte of body.  The buffered relay sends the head with
    status 502 (on a connection whose head has not gone out) and writes
    only the empty body of [c.Data]; the streaming relay records 502 on
    the writer and writes nothing itself. *)
Theorem upstream_failure_answers_502 (req : Request) (proxy : ReverseProxy)
    (err : error) (w : World) :
  RoundTrip (Director proxy req) = Err err →
  head (writer w) = None →
  (∃ h, head (writer (handleNonStreamRequest req proxy w).2)
        = Some (StatusBadGateway, h))
  ∧ written (writer (handleNonStreamRequest req proxy w).2)
    = written (writer w) ++ [""]
  ∧ status (writer (handleStreamRequest req proxy w).2) = StatusBadGateway
  ∧ written (writer (handleStreamRequest req proxy w).2) = written (writer w)
  ∧ head (writer (handleStreamRequest req proxy w).2) = None.
Proof.
  intros Htrip Hhead. split_and!.
  - rewrite (handleNonStreamRequest_failed _ _ _ _ Htrip).
    set (c1 := Gin.WriteHeader StatusBadGateway (writer w)).
    set (c2 := Gin.WriteHeader StatusBadGateway c1).
    set (c3 := Gin.withHeader _ c2).
    destruct (Write_fields "" c3) as (_ & _ & ->).
    destruct (WriteHeader_fields StatusBadGateway c1) as (_ & D2 & _ & S2).
    destruct (WriteHeader_fields StatusBadGateway (writer w))
      as (_ & D1 & _ & _).
    fold c1 in D1. fold c2 in D2, S2.
    change (head c3) with (head c2). change (status c3) with (status c2).
    rewrite D2, D1, Hhead. cbn [default].
    rewrite S2 by (by rewrite ?D1). by eexists.
  - rewrite (handleNonStreamRequest_failed _ _ _ _ Htrip), written_Write.
    set (c1 := Gin.WriteHeader StatusBadGateway (writer w)).
    destruct (WriteHeader_fields StatusBadGateway c1) as (_ & _ & W2 & _).
    destruct (WriteHeader_fields StatusBadGateway (writer w))
      as (_ & _ & W1 & _).
    fold c1 in W1. unfold Gin.withHeader. cbn [written]. by rewrite W2, W1.
  - unfold handleStreamRequest, ServeHTTP. rewrite Htrip.
    cbn [WriteHeader streamResponseWriter_ResponseWriter].
    unfold bind, Gin.Header_, onWriter, ret.
    cbn [fst snd writer logger String.eqb Ascii.eqb Bool.eqb].
    match goal with
    | |- context [Gin.WriteHeader StatusOK ?c] => set (c1 := c)
    end.
    destruct (WriteHeader_fields StatusBadGateway (Gin.WriteHeader StatusOK c1))
      as (_ & _ & _ & S2).
    apply S2; [| done].
    destruct (WriteHeader_fields StatusOK c1) as (_ & -> & _ & _). done.
  - unfold handleStreamRequest, ServeHTTP. rewrite Htrip.
    cbn [WriteHeader streamResponseWriter_ResponseWriter].
    unfold bind, Gin.Header_, onWriter, ret.
    cbn [fst snd writer logger String.eqb Ascii.eqb Bool.eqb].
    match goal with
    | |- context [Gin.WriteHeader StatusOK ?c] => set (c1 := c)
    end.
    destruct (WriteHeader_fields StatusBadGateway (Gin.WriteHeader StatusOK c1))
      as (_ & _ & -> & _).
    by destruct (WriteHeader_fields StatusOK c1) as (_ & _ & -> & _).
  - unfold handleStreamRequest, ServeHTTP. rewrite Htrip.
    cbn [WriteHeader streamResponseWriter_ResponseWriter].
    unfold bind, Gin.Header_, onWriter, ret.
    cbn [fst snd writer logger String.eqb Ascii.eqb Bool.eqb].
    match goal with
    | |- context [Gin.WriteHeader StatusOK ?c] => set (c1 := c)
    end.
    destruct (WriteHeader_fields StatusBadGateway (Gin.WriteHeader StatusOK c1))
      as (_ & -> & _ & _).
    by destruct (WriteHeader_fields StatusOK c1) as (_ & -> & _ & _).
Qed.

Lemma WriteHeader_same (code : Z) (c : client) :
  status c = code → Gin.WriteHeader code c = c.
Proof.
  intros <-. unfold Gin.WriteHeader. rewrite Z.eqb_refl.
  by rewrite andb_false_r.
Qed.

Lemma WriteHeaderNow_head (c : client) :
  head (Gin.WriteHeaderNow c) = Some (default (status c, header c) (head c)).
Proof.
  unfold Gin.WriteHeaderNow, Gin.Written.
  destruct (head c) as [[code h]|] eqn:Hhead.
  - rewrite bool_decide_true by eauto. by rewrite Hhead.
  - by rewrite bool_decide_false by (by intros [? ?]).
Qed.

Lemma Get_writeContentType (h : Header) :
  Get (Gin.writeContentType (Get h "Content-Type") h) "Content-Type"
  = Get h "Content-Type".
Proof.
  unfold Gin.writeContentType, Get.
  destruct (h !! "Content-Type") as [[|v rest]|] eqn:Htype.
  - by rewrite lookup_insert_eq.
  - by rewrite Htype.
  - by rewrite lookup_insert_eq.
Qed.

Lemma handleNonStreamRequest_writer (req : Request) (proxy : ReverseProxy)
    (res : Response) (w : World) :
  ModifyResponse proxy = logResponse →
  RoundTrip (Director proxy req) = Ok res →
  RespBodyErr res = None →
  Get (Del (Del (Del (RespHeader res) "Access-Control-Allow-Origin")
              "Access-Control-Allow-Methods")
         "Access-Control-Allow-Headers") "Content-Type"
  ≠ "text/event-stream" →
  writer (handleNonStreamRequest req proxy w).2
  = let c :=
      foldl (λ c chunk, Gin.Write chunk c)
        (Gin.WriteHeader (StatusCode res)
           (Gin.withHeader
              (λ h, copyHeader h
                      (Del (Del (Del (RespHeader res)
                                   "Access-Control-Allow-Origin")
                              "Access-Control-Allow-Methods")
                         "Access-Control-Allow-Headers"))
              (writer w)))
        (bufferReads copyBufferSize copyBufferSize
           (String.concat "" (RespBody res))) in
    (if Gin.bodyAllowedForStatus (StatusCode res)
     then Gin.Write (String.concat "" (RespBody res))
     else Gin.WriteHeaderNow)
      (Gin.withHeader
         (Gin.writeContentType (Get (header c) "Content-Type"))
         (Gin.WriteHeader (StatusCode res) c)).
Proof.
  intros Hmodify Htrip Hread Htype.
  apply String.eqb_neq in Htype.
  unfold handleNonStreamRequest, ServeHTTP. rewrite Htrip, Hmodify.
  unfold logResponse. rewrite Htype, Hread.
  unfold bind, Printf, ret, onWriter, getWriter.
  cbn [fst snd StatusCode RespHeader RespBody WriteHeader
       responseBodyWriter_ResponseWriter body statusCode writer logger].
  unfold bind, ret, onWriter.
  cbn [fst snd body statusCode writer logger].
  match goal with
  | |- context [@copyBuffer _ _ ?rw ?reads ?w0] =>
      destruct (copyBuffer_body reads rw w0) as (Hbody & Hcode & _ & _);
      pose proof (copyBuffer_body_writer reads rw w0) as Hcopy;
      destruct (@copyBuffer _ _ rw reads w0) as [rw' w']
  end.
  cbn [fst snd body statusCode writer logger] in *.
  rewrite concat_bufferReads in Hbody.
  change ("" +:+ String.concat "" (RespBody res))
    with (String.concat "" (RespBody res)) in Hbody.
  match goal with
  | |- context [logReply ?d ?w0] =>
      pose proof (logReply_writer d w0) as Hreply;
      destruct (logReply d w0) as [[] w'']
  end.
  cbn [snd writer] in Hreply.
  unfold Gin.Data, Gin.Status, bind, onWriter. rewrite Hcode, Hbody.
  cbn [fst snd writer logger]. rewrite Hreply, Hcopy.
  by destruct (Gin.bodyAllowedForStatus (StatusCode res)).
Qed.

(** X11. When the upstream answers a buffered request, the head the
    client receives carries the upstream's status code and the upstream's
    [Content-Type] (on a connection whose head has not gone out and
    whose header map has no [Content-Type] yet). *)
Theorem buffered_relay_sends_upstream_head (req : Request)
    (proxy : ReverseProxy) (res : Response) (w : World) :
  ModifyResponse proxy = logResponse →
  RoundTrip (Director proxy req) = Ok res →
  RespBodyErr res = None →
  Get (Del (Del (Del (RespHeader res) "Access-Control-Allow-Origin")
              "Access-Control-Allow-Methods")
         "Access-Control-Allow-Headers") "Content-Type"
  ≠ "text/event-stream" →
  head (writer w) = None →
  header (writer w) !! "Content-Type" = None →
  (0 < StatusCode res)%Z →
  ∃ h, head (writer (handleNonStreamRequest req proxy w).2)
       = Some (StatusCode res, h)
       ∧ Get h "Content-Type" = Get (RespHeader res) "Content-Type".
Proof.
  intros Hmodify Htrip Hread Htype Hhead Hnone Hpos.
  rewrite (handleNonStreamRequest_writer _ _ _ _ Hmodify Htrip Hread Htype).
  cbv zeta.
  set (stripped := Del (Del (Del (RespHeader res) _) _) _).
  set (c0 := Gin.withHeader _ (writer w)).
  set (c1 := Gin.WriteHeader (StatusCode res) c0).
  set (reads := bufferReads _ _ _).
  set (c := foldl _ c1 reads).
  destruct (WriteHeader_fields (StatusCode res) c0) as (H1 & D1 & _ & S1).
  fold c1 in H1, D1, S1.
  change (head c0) with (head (writer w)) in *.
  change (header c0) with (copyHeader (header (writer w)) stripped) in *.
  specialize (S1 Hhead Hpos). rewrite Hhead in D1.
  destruct (foldl_Write_fields reads c1) as (Hc & Sc & _ & Dc).
  fold c in Hc, Sc, Dc. rewrite H1 in Hc. rewrite S1 in Sc.
  rewrite D1, S1, H1 in Dc. rewrite (WriteHeader_same _ _ Sc).
  assert (Hget : Get (copyHeader (header (writer w)) stripped) "Content-Type"
                 = Get (RespHeader res) "Content-Type").
  { rewrite Get_copyHeader_absent by done. unfold stripped, Get, Del.
    by rewrite !lookup_delete_ne. }
  set (d := Gin.withHeader _ c).
  assert (Hd : head ((if Gin.bodyAllowedForStatus (StatusCode res)
                      then Gin.Write (String.concat "" (RespBody res))
                      else Gin.WriteHeaderNow) d)
               = Some (default (status d, header d) (head d))).
  { destruct (Gin.bodyAllowedForStatus _).
    - by destruct (Write_fields (String.concat "" (RespBody res)) d)
        as (_ & _ & ->).
    - apply WriteHeaderNow_head. }
  rewrite Hd. change (head d) with (head c). change (status d) with (status c).
  change (header d)
    with (Gin.writeContentType (Get (header c) "Content-Type") (header c)).
  rewrite Hc, Sc, Dc. destruct reads; cbn [default].
  - eexists. split; [done |]. by rewrite Get_writeContentType.
  - eexists. by split.
Qed.

Lemma rewriteRequest_value (request : object float64) (w w' : World) :
  (rewriteRequest request w).1 = (rewriteRequest request w').1.
Proof.
  destruct request as [fields|]; [| done].
  destruct (fields !! "messages") as [[| | | |messages|]|] eqn:Hmsgs;
    try (rewrite !rewriteRequest_other; [done | |];
         intros [l Hl]; simpl in Hl; congruence).
  by rewrite !(rewriteRequest_chat _ _ _ Hmsgs).
Qed.

Lemma modifyRequestBody_value (data : string) (w w' : World) :
  (modifyRequestBody data w).1 = (modifyRequestBody data w').1.
Proof.
  unfold modifyRequestBody.
  destruct (Unmarshal json data) as [request|err]; [| done].
  unfold bind. pose proof (rewriteRequest_value request w w') as Hsame.
  destruct (rewriteRequest request w) as [r1 w1].
  destruct (rewriteRequest request w') as [r2 w2]. simpl in Hsame. subst r2.
  by destruct (Marshal json r1).
Qed.

(** X15. What the streaming writer logs for a chunk comes line by line.
    The chunk is its lines joined by line feeds, in one way only, and
    each line contributes its own entries in its place: none when the
    line is blank and only then, one otherwise, and a data-chunk entry
    only for a payload that [json.Unmarshal] accepts, logged without its
    [data: ] prefix. *)
Theorem stream_write_logs_per_line (p : string) (w : World) :
  ∃ (lines : list string) (logs : list (list logEntry)),
    p = chunk lines
    ∧ lines ≠ []
    ∧ lineFeedFree lines = true
    ∧ (∀ lines', lines' ≠ [] → lineFeedFree lines' = true →
                 p = chunk lines' → lines' = lines)
    ∧ logger (Write p StreamResponseWriter w).2 = logger w ++ concat logs
    ∧ length logs = length lines
    ∧ ∀ i line entries,
        lines !! i = Some line →
        logs !! i = Some entries →
        length entries ≤ 1
        ∧ (entries = [] ↔ TrimSpace line = "")
        ∧ ∀ payload,
            LogStreamChunk payload ∈ entries →
            payload = TrimPrefix (TrimSpace line) "data: "
            ∧ ∃ request, Unmarshal json payload = Ok request.
Proof.
  destruct (chunk_Split p) as (Hjoin & Hfree & Hne).
  exists (Split p (String "010" "")),
         (streamLineLog <$> Split p (String "010" "")).
  split_and!; try done.
  - intros lines' Hne' Hfree' ->. by rewrite Split_chunk.
  - by rewrite stream_Write_run.
  - by rewrite length_fmap.
  - intros i line entries Hline Hentries.
    rewrite list_lookup_fmap, Hline in Hentries. injection Hentries as <-.
    unfold streamLineLog.
    destruct (TrimSpace line) as [|c t] eqn:Htrim.
    { split_and!; [simpl; lia | done | by intros ? ?%elem_of_nil]. }
    cbn [String.length Nat.eqb].
    destruct (String.eqb _ "[DONE]").
    { split_and!; [simpl; lia | done |].
      by intros payload ?%list_elem_of_singleton. }
    destruct (Unmarshal json _) as [request|err] eqn:Hparse.
    + split_and!; [simpl; lia | done |].
      intros payload [= ->]%list_elem_of_singleton. split; [done |].
      by exists request.
    + split_and!; [simpl; lia | done |].
      by intros payload ?%list_elem_of_singleton.
Qed.

(** X16. The director changes the outbound request in two places only:
    the host becomes the upstream's, and [Authorization] is set to a
    single value.  Method, path, body, content length and every other
    header are as the default director left them. *)
Theorem director_touches_host_and_authorization (inbound req : Request) :
  Host (proxyDirector inbound req) = openAIURL_Host
  ∧ (∃ v, ReqHeader (proxyDirector inbound req) !! "Authorization" = Some [v])
  ∧ (∀ key, key ≠ "Authorization" →
       ReqHeader (proxyDirector inbound req) !! key
       = ReqHeader (director req) !! key)
  ∧ Method (proxyDirector inbound req) = Method (director req)
  ∧ Path (proxyDirector inbound req) = Path (director req)
  ∧ Body (proxyDirector inbound req) = Body (director req)
  ∧ ContentLength (proxyDirector inbound req) = ContentLength (director req).
Proof.
  unfold proxyDirector. cbn [Host ReqHeader Method Path Body ContentLength].
  split_and!; try done.
  - destruct (negb _); eexists; unfold Set_; apply lookup_insert_eq.
  - intros key Hkey. destruct (negb _); unfold Set_;
      by rewrite lookup_insert_ne.
Qed.

(** *** The log of a whole request *)

Lemma logResponse_logs (res : Response) (w : World) :
  ∃ entries, (logResponse res w).2 = addLogs w entries.
Proof.
  unfold logResponse. destruct (String.eqb _ _); [by eexists |].
  destruct (RespBodyErr res); by eexists.
Qed.

Lemma copyBuffer_stream_logger (reads : list string) (w : World) :
  ∃ entries,
    logger (copyBuffer StreamResponseWriter reads w).2 = logger w ++ entries.
Proof.
  revert w. induction reads as [|chunk reads IH]; intros w.
  - exists []. simpl. by rewrite app_nil_r.
  - cbn [copyBuffer]. unfold bind. rewrite stream_Write_run.
    match goal with
    | |- context [copyBuffer StreamResponseWriter reads ?w0] =>
        destruct (IH w0) as [entries ->]
    end.
    cbn [logger]. eexists. by rewrite <- app_assoc.
Qed.

Lemma handleStreamRequest_logs (req : Request) (proxy : ReverseProxy)
    (w : World) :
  ModifyResponse proxy = logResponse →
  ∃ entries, logger (handleStreamRequest req proxy w).2 = logger w ++ entries.
Proof.
  intros Hmodify. unfold handleStreamRequest, ServeHTTP. rewrite Hmodify.
  unfold bind, Gin.Header_, onWriter, ret.
  cbn [fst snd writer logger String.eqb Ascii.eqb Bool.eqb].
  destruct (RoundTrip (Director proxy req)) as [res|err].
  2:{ exists []. cbn [WriteHeader streamResponseWriter_ResponseWriter].
      unfold bind, onWriter, ret. cbn [fst snd logger].
      by rewrite app_nil_r. }
  match goal with
  | |- context [logResponse res ?w0] =>
      destruct (logResponse_logs res w0) as [entries Hlog];
      destruct (logResponse res w0) as [[res'|err] w1]
  end; cbn [snd] in Hlog; subst w1.
  - cbn [WriteHeader streamResponseWriter_ResponseWriter].
    unfold bind, onWriter, ret. cbn [fst snd logger writer addLogs].
    match goal with
    | |- context [@copyBuffer _ _ ?rw ?reads ?w0] =>
        destruct (copyBuffer_stream_logger reads w0) as [entries' Hcopy];
        destruct (@copyBuffer _ _ rw reads w0) as [rw' w']
    end.
    cbn [fst snd logger] in *. rewrite Hcopy. eexists.
    by rewrite <- app_assoc.
  - cbn [WriteHeader streamResponseWriter_ResponseWriter].
    unfold bind, onWriter, ret. cbn [fst snd logger addLogs]. by eexists.
Qed.

Lemma logReply_logs (data : string) (w : World) :
  ∃ entries, (logReply data w).2 = addLogs w entries.
Proof.
  unfold logReply.
  destruct (Unmarshal json data) as [response|err]; [| by eexists].
  destruct (index response "choices") as [[| | | |[|[| | | | |choice] ?]|]|];
    try (exists []; by rewrite addLogs_nil).
  destruct (choice !! "message") as [[| | | | |message]|];
    try (exists []; by rewrite addLogs_nil).
  destruct (message !! "content") as [[| | |content| |]|];
    try (exists []; by rewrite addLogs_nil).
  by eexists.
Qed.

Lemma handleNonStreamRequest_logs (req : Request) (proxy : ReverseProxy)
    (w : World) :
  ModifyResponse proxy = logResponse →
  ∃ entries,
    logger (handleNonStreamRequest req proxy w).2 = logger w ++ entries.
Proof.
  intros Hmodify.
  assert (Htail : ∀ (rw : responseBodyWriter) (w0 : World)
                    (entries0 : list logEntry),
             logger w0 = logger w ++ entries0 →
             ∃ entries,
               logger
                 ((Printf (LogResponse (statusCode rw) (body rw)) ;;
                   logReply (body rw) ;;
                   c <- getWriter ;;
                   Gin.Data (statusCode rw) (Get (header c) "Content-Type")
                     (body rw)) w0).2
               = logger w ++ entries).
  { intros rw w0 entries0 Hw0. unfold bind at 1. unfold Printf at 1.
    unfold bind at 1.
    match goal with
    | |- context [logReply ?d ?w1] =>
        destruct (logReply_logs d w1) as [entries Hlog];
        destruct (logReply d w1) as [[] w2]
    end.
    cbn [snd] in Hlog. subst w2.
    unfold bind, getWriter, Gin.Data, Gin.Status, onWriter, bind.
    cbn [fst snd logger writer addLogs]. rewrite Hw0.
    destruct (Gin.bodyAllowedForStatus _); cbn [snd logger];
      eexists; by rewrite <- !app_assoc. }
  unfold handleNonStreamRequest. unfold bind at 1.
  unfold ServeHTTP. rewrite Hmodify.
  destruct (RoundTrip (Director proxy req)) as [res|err].
  2:{ cbn [WriteHeader responseBodyWriter_ResponseWriter].
      unfold bind at 1. unfold onWriter at 1. unfold ret at 1.
      apply (Htail _ _ []). cbn [logger]. by rewrite app_nil_r. }
  unfold bind at 1.
  destruct (logResponse_logs res w) as [entries Hlog].
  destruct (logResponse res w) as [[res'|err] w1]; cbn [snd] in Hlog; subst w1.
  - unfold bind at 1. unfold onWriter at 1. unfold bind at 1.
    cbn [WriteHeader responseBodyWriter_ResponseWriter].
    unfold bind at 1. unfold onWriter at 1. unfold ret at 1.
    match goal with
    | |- context [@copyBuffer _ _ ?rw ?reads ?w0] =>
        destruct (copyBuffer_body reads rw w0) as (_ & _ & _ & Hcopy);
        destruct (@copyBuffer _ _ rw reads w0) as [rw' w']
    end.
    cbn [fst snd logger writer addLogs] in Hcopy.
    by apply (Htail _ _ entries).
  - cbn [WriteHeader responseBodyWriter_ResponseWriter].
    unfold bind at 1. unfold onWriter at 1. unfold ret at 1.
    by apply (Htail _ _ entries).
Qed.

(** X17. The log of a request only grows, and it records the request
    with the body as it came in, not as it was rewritten: after the two
    entries for the request come the entries of the rewriter, then the
    request entry with the inbound body, then whatever the relay logs. *)
Theorem request_logged_with_inbound_body (req : Request) (data : string)
    (w : World) :
  Body req = Some (Ok data) →
  ∃ rewriting relaying,
    logger (handleProxy req w).2
    = logger w
      ++ [LogReceived (Method req) (Path req);
          LogRequestHeader (ReqHeader req)]
      ++ rewriting
      ++ [LogRequest (Method req) (Path req) data]
      ++ relaying
    ∧ ∀ w0, (modifyRequestBody data w0).2 = addLogs w0 rewriting.
Proof.
  intros Hbody. unfold handleProxy, bind, Printf.
  cbn [fst snd logger writer]. rewrite Hbody.
  destruct (modifyRequestBody_uniform data) as (out & rewriting & Hrun).
  exists rewriting. rewrite Hrun. cbn [ret fst snd Method Path addLogs logger
                                        writer].
  assert (Hlater : ∀ w0, (modifyRequestBody data w0).2 = addLogs w0 rewriting)
    by (intros w0; by rewrite Hrun).
  destruct (String.eqb (Method req) "OPTIONS").
  { exists []. split; [| done]. unfold Gin.Status, onWriter, ret.
    cbn [fst snd logger]. by rewrite <- !app_assoc. }
  match goal with
  | |- context [isStreamRequest ?r] => destruct (isStreamRequest r)
  end.
  - match goal with
    | |- context [handleStreamRequest ?r ?p ?w0] =>
        destruct (handleStreamRequest_logs r p w0 eq_refl) as [relaying Hlog];
        destruct (handleStreamRequest r p w0) as [[] w']
    end.
    unfold ret. cbn [snd logger] in *. exists relaying. split; [| done].
    rewrite Hlog. by rewrite <- !app_assoc.
  - match goal with
    | |- context [handleNonStreamRequest ?r ?p ?w0] =>
        destruct (handleNonStreamRequest_logs r p w0 eq_refl)
          as [relaying Hlog];
        destruct (handleNonStreamRequest r p w0) as [[] w']
    end.
    unfold ret. cbn [snd logger] in *. exists relaying. split; [| done].
    rewrite Hlog. by rewrite <- !app_assoc.
Qed.

Lemma bad_gateway_writer (c : client) :
  head c = None →
  (∃ h,
     head (Gin.Write ""
             (Gin.withHeader
                (Gin.writeContentType
                   (Get (header (Gin.WriteHeader StatusBadGateway c))
                      "Content-Type"))
                (Gin.WriteHeader StatusBadGateway
                   (Gin.WriteHeader StatusBadGateway c))))
     = Some (StatusBadGateway, h))
  ∧ written (Gin.Write ""
               (Gin.withHeader
                  (Gin.writeContentType
                     (Get (header (Gin.WriteHeader StatusBadGateway c))
                        "Content-Type"))
                  (Gin.WriteHeader StatusBadGateway
                     (Gin.WriteHeader StatusBadGateway c))))
    = written c ++ [""].
Proof.
  intros Hhead.
  set (c1 := Gin.WriteHeader StatusBadGateway c).
  set (c2 := Gin.WriteHeader StatusBadGateway c1).
  set (c3 := Gin.withHeader _ c2).
  destruct (Write_fields "" c3) as (_ & _ & ->). rewrite written_Write.
  destruct (WriteHeader_fields StatusBadGateway c1) as (_ & D2 & W2 & S2).
  destruct (WriteHeader_fields StatusBadGateway c) as (_ & D1 & W1 & _).
  fold c1 in D1, W1. fold c2 in D2, W2, S2.
  change (head c3) with (head c2). change (status c3) with (status c2).
  change (written c3) with (written c2).
  rewrite D2, D1, Hhead, W2, W1. cbn [default].
  rewrite S2 by (by rewrite ?D1). split; [by eexists | done].
Qed.

(** X18. When the upstream answers a buffered request with a response
    that is no event stream and whose body cannot be read, the client is
    answered 502 with no byte of body (on a connection whose head has
    not gone out): the failure of [logResponse] stops the relay before
    anything of the response is copied. *)
Theorem unreadable_response_answers_502 (req : Request)
    (proxy : ReverseProxy) (res : Response) (err : error) (w : World) :
  ModifyResponse proxy = logResponse →
  RoundTrip (Director proxy req) = Ok res →
  Get (Del (Del (Del (RespHeader res) "Access-Control-Allow-Origin")
              "Access-Control-Allow-Methods")
         "Access-Control-Allow-Headers") "Content-Type"
  ≠ "text/event-stream" →
  RespBodyErr res = Some err →
  head (writer w) = None →
  (∃ h, head (writer (handleNonStreamRequest req proxy w).2)
        = Some (StatusBadGateway, h))
  ∧ written (writer (handleNonStreamRequest req proxy w).2)
    = written (writer w) ++ [""].
Proof.
  intros Hmodify Htrip Htype Hread Hhead.
  apply String.eqb_neq in Htype.
  assert (Hwriter :
    writer (handleNonStreamRequest req proxy w).2
    = Gin.Write ""
        (Gin.withHeader
           (Gin.writeContentType
              (Get (header (Gin.WriteHeader StatusBadGateway (writer w)))
                 "Content-Type"))
           (Gin.WriteHeader StatusBadGateway
              (Gin.WriteHeader StatusBadGateway (writer w))))).
  { unfold handleNonStreamRequest, ServeHTTP. rewrite Htrip, Hmodify.
    unfold logResponse. rewrite Htype, Hread.
    unfold bind, Printf, ret, onWriter, getWriter.
    cbn [fst snd WriteHeader responseBodyWriter_ResponseWriter body
         statusCode writer logger].
    unfold bind, ret, onWriter.
    cbn [fst snd body statusCode writer logger].
    match goal with
    | |- context [logReply ?d ?w0] =>
        pose proof (logReply_writer d w0) as Hreply;
        destruct (logReply d w0) as [[] w']
    end.
    cbn [snd writer] in Hreply.
    unfold Gin.Data, Gin.Status, bind, onWriter.
    change (Gin.bodyAllowedForStatus StatusBadGateway) with true.
    cbn [fst snd writer logger]. by rewrite Hreply. }
  rewrite Hwriter. by apply bad_gateway_writer.
Qed.

End Proxy.

(** ** The program on the sample inputs *)

Lemma RangeOrder_ascending : RangeOrder ascending.
Proof. by intros i table. Qed.

Lemma RangeOrder_descending : RangeOrder descending.
Proof. intros i table. unfold descending. by rewrite reverse_Permutation. Qed.

Lemma bodyHello_keywordFree (request : object Z) :
  Unmarshal JsonFragment.json bodyHello = Ok request →
  keywordFree configBadword request.
Proof.
  intros Hreq. vm_compute in Hreq. injection Hreq as <-.
  intros messages i message content keyword Hmsgs Hi Hc [r Hr].
  vm_compute in Hmsgs. injection Hmsgs as <-.
  destruct i as [|i]; [| by destruct i].
  injection Hi as <-. vm_compute in Hc. injection Hc as <-.
  unfold configBadword in Hr. cbn [PromptModifications] in Hr.
  apply lookup_singleton_Some in Hr as [<- _]. by vm_compute.
Qed.

(** C2 on a sample: the upstream answers 200 with a JSON body and no
    declared length.  The client's writer receives the body from the
    write-through of [responseBodyWriter.Write], and then once more from
    [c.Data] at line 294. *)
Theorem buffered_relay_writes_body_twice :
  let run :=
    handleProxy JsonFragment.json configBadword "api.openai.com" id
      (answering (jsonResponse bodyReply)) ascending
      (request0 "POST" "/v1/chat/completions" ∅ (Some (Ok bodyHello)))
      world0 in
  run.1 = BufferedRelay
  ∧ written (writer run.2) = [bodyReply; bodyReply]
  ∧ head (writer run.2)
    = Some (StatusOK, {["Content-Type" := ["application/json"]]}).
Proof. by vm_compute. Qed.

(** C3 fails as stated: with the table [a -> b, b -> c] the content [a]
    is rewritten to [c] when the map is met in one order and to [b] when
    it is met in the other, and both are orders of the same table. *)
Lemma map_order_changes_rewriting :
  RangeOrder ascending
  ∧ RangeOrder descending
  ∧ (modifyRequestBody JsonFragment.json configChain ascending
       bodyChain world0).1
    = quoted "{'messages':[{'content':'c'}]}"
  ∧ (modifyRequestBody JsonFragment.json configChain descending
       bodyChain world0).1
    = quoted "{'messages':[{'content':'b'}]}".
Proof.
  split_and!;
    [apply RangeOrder_ascending | apply RangeOrder_descending
    | by vm_compute | by vm_compute].
Qed.

Lemma sample_rewrite_in_range_order :
  ∃ messages',
    (rewriteRequest configBadword ascending (Some fieldsBadword) world0).1
    = Some (<["messages" := VSlice messages']> fieldsBadword)
    ∧ messages' !! 0
      = Some (VMap (<["content" := VString "hello nice"]> messageBadword)).
Proof.
  destruct (rewrite_applies_table_in_range_order configBadword ascending
              fieldsBadword [VMap messageBadword] 0 messageBadword
              "hello BADWORD" world0)
    as (messages' & Hrequest & Hmessage & _).
  - apply RangeOrder_ascending.
  - by vm_compute.
  - reflexivity.
  - by vm_compute.
  - exists messages'. split; [exact Hrequest |]. rewrite Hmessage.
    by vm_compute.
Defined.

(** C4 fails as stated: the content [hello] holds no keyword, yet the
    body goes out with the members of the message in another order. *)
Lemma keyword_free_body_is_reordered :
  Contains "hello" "BADWORD" = false
  ∧ (modifyRequestBody JsonFragment.json configBadword ascending
       bodyHello world0).1
    = quoted "{'messages':[{'content':'hello','role':'user'}]}"
  ∧ (modifyRequestBody JsonFragment.json configBadword ascending
       bodyHello world0).1
    ≠ bodyHello.
Proof. split_and!; by vm_compute. Qed.

Lemma sample_keyword_free_body :
  (modifyRequestBody JsonFragment.json configBadword ascending
     bodyHello world0).1
  = quoted "{'messages':[{'content':'hello','role':'user'}]}".
Proof.
  rewrite (keyword_free_body_is_reencoded JsonFragment.json configBadword
             ascending bodyHello world0).
  - by vm_compute.
  - apply RangeOrder_ascending.
  - apply bodyHello_keywordFree.
Defined.

(** C5 fails as stated: a JSON object with no [messages] is not
    chat-shaped, and it goes out re-encoded, without the space the
    inbound body had. *)
Lemma unshaped_body_is_reencoded :
  malformed JsonFragment.json bodyPrompt
  ∧ (modifyRequestBody JsonFragment.json configBadword ascending
       bodyPrompt world0).1
    = quoted "{'prompt':'hi'}"
  ∧ (modifyRequestBody JsonFragment.json configBadword ascending
       bodyPrompt world0).1
    ≠ bodyPrompt.
Proof.
  split_and!; [| by vm_compute | by vm_compute].
  unfold malformed. vm_compute. by intros [messages Hmsgs].
Qed.

Lemma sample_malformed_body :
  malformed JsonFragment.json "oops"
  ∧ modifyRequestBody JsonFragment.json configBadword ascending "oops" world0
    = ("oops", addLogs world0 [LogRequestParseError SyntaxError]).
Proof.
  assert (Hbad : malformed JsonFragment.json "oops") by (by vm_compute).
  split; [exact Hbad |].
  exact (proj1 (malformed_body_forwarding JsonFragment.json configBadword
                  "api.openai.com" id (answering (jsonResponse bodyReply))
                  ascending "oops" world0 Hbad)).
Defined.

Lemma sample_frame :
  ∃ fields',
    (rewriteRequest configBadword ascending (Some fieldsBadword) world0).1
    = Some fields'
    ∧ fields' !! "model" = Some (VString "gpt-4").
Proof.
  destruct (rewrite_preserves_frame JsonFragment.json configBadword ascending
              fieldsBadword [VMap messageBadword] world0)
    as (fields' & messages' & Hrequest & _ & Hother & _).
  - by vm_compute.
  - exists fields'. split; [exact Hrequest |].
    rewrite Hother; [by vm_compute | discriminate].
Defined.

(** C6 fails on the code.  The first request names [Authorization] in
    its [Connection] header and brings no key.  The Director sets the
    header to [Bearer ] and the configured key, as the claim says; the
    library then removes the headers [Connection] names, so the request
    the transport sends has no [Authorization] at all, and an upstream
    that wants a key answers 401.  The second request brings its own key
    the same way, and that key does not reach the upstream either. *)
Theorem connection_header_strips_authorization :
  let sent inbound :=
    let forwarded :=
      (forwardedRequest JsonFragment.json configBadword ascending inbound
         world0).1 in
    Httputil.outbound (Some "203.0.113.7") forwarded
      (proxyDirector configBadword "api.openai.com" id inbound forwarded) in
  let run inbound :=
    let forwarded :=
      (forwardedRequest JsonFragment.json configBadword ascending inbound
         world0).1 in
    handleProxy JsonFragment.json configBadword "api.openai.com" id
      (Httputil.sendUpstream (Some "203.0.113.7") requiringKey forwarded)
      ascending inbound world0 in
  (ReqHeader keylessRequest !! "Authorization" = None
   ∧ Get (ReqHeader (proxyDirector configBadword "api.openai.com" id
                       keylessRequest keylessRequest)) "Authorization"
     = "Bearer sk-default"
   ∧ (∃ r, sent keylessRequest = Some r
           ∧ ReqHeader r !! "Authorization" = None
           ∧ Host r = "api.openai.com")
   ∧ (run keylessRequest).1 = BufferedRelay
   ∧ status (writer (run keylessRequest).2) = 401%Z)
  ∧ (Get (ReqHeader keyedRequest) "Authorization" = "Bearer sk-user"
     ∧ Get (ReqHeader (proxyDirector configBadword "api.openai.com" id
                         keyedRequest keyedRequest)) "Authorization"
       = "Bearer sk-user"
     ∧ (∃ r, sent keyedRequest = Some r
             ∧ ReqHeader r !! "Authorization" = None)
     ∧ status (writer (run keyedRequest).2) = 401%Z).
Proof.
  cbn zeta. split.
  - split_and!; try by vm_compute. eexists. split; [by vm_compute |].
    by vm_compute.
  - split_and!; try by vm_compute. eexists. split; [by vm_compute |].
    by vm_compute.
Qed.

(** C8 on a sample: a chunk of three lines, the second the padded
    sentinel, the third empty. *)
Lemma sample_sentinel_line :
  logger (@Write _ (streamResponseWriter_ResponseWriter JsonFragment.json)
            (chunk ["data: {}"; "  data: [DONE] "; ""])
            StreamResponseWriter world0).2
  = [LogStreamChunk "{}"; LogStreamDone].
Proof.
  pose proof (sentinel_line_logs_completion JsonFragment.json
                "  data: [DONE] " ["data: {}"] [""] world0) as Hline.
  cbn zeta in Hline. destruct Hline as (_ & Hlog & _).
  - reflexivity.
  - by vm_compute.
  - etransitivity; [exact Hlog | by vm_compute].
Defined.

(** C8 fails as stated: the upstream sends the line [data: [DONE]] in two
    reads, the first ending inside the sentinel.  The line is a line of
    the stream and its payload is the sentinel, yet each call of [Write]
    sees a piece of it only and logs a parse error for the piece; no end
    of stream is logged. *)
Lemma sentinel_split_across_writes :
  let reads := ["data: [DO"; chunk ["NE]"; ""]] in
  let run :=
    handleProxy JsonFragment.json configBadword "api.openai.com" id
      (answering (eventStream StatusOK reads)) ascending streamRequest
      world0 in
  String.concat "" reads = chunk ["data: [DONE]"; ""]
  ∧ TrimPrefix (TrimSpace "data: [DONE]") "data: " = "[DONE]"
  ∧ run.1 = StreamRelay
  ∧ written (writer run.2) = reads
  ∧ (LogStreamDone ∉ logger run.2)
  ∧ logger run.2
    = [LogReceived "POST" "/v1/stream"; LogRequestHeader ∅;
       LogOriginalPrompt "hello";
       LogRequest "POST" "/v1/stream" bodyHello;
       LogStreamResponseStart StatusOK;
       LogStreamParseError SyntaxError;
       LogStreamParseError SyntaxError].
Proof.
  intros reads run.
  assert (Hlog : logger run.2
                 = [LogReceived "POST" "/v1/stream"; LogRequestHeader ∅;
                    LogOriginalPrompt "hello";
                    LogRequest "POST" "/v1/stream" bodyHello;
                    LogStreamResponseStart StatusOK;
                    LogStreamParseError SyntaxError;
                    LogStreamParseError SyntaxError]) by (by vm_compute).
  refine (conj _ (conj _ (conj _ (conj _ (conj _ Hlog)))));
    [by vm_compute | by vm_compute | by vm_compute | by vm_compute |].
  rewrite Hlog. not_listed.
Qed.

(** C9 fails as stated, twice over.  The first request has [/stream] in
    its path and asks for an event stream, and being an OPTIONS request
    it is answered at line 125, before any relay is chosen.  The path of
    the second holds [/stream] inside the segment [streaming-stats] and
    has no segment [stream]; the request names no [Accept] type either,
    and it goes to the streaming relay. *)
Lemma preflight_bypasses_relay_selection :
  let preflight :=
    request0 "OPTIONS" "/v1/stream"
      {["Accept" := ["text/event-stream"]]} (Some (Ok "")) in
  let stats := request0 "GET" "/v1/streaming-stats" ∅ (Some (Ok "")) in
  let run req :=
    handleProxy JsonFragment.json configBadword "api.openai.com" id
      (answering (jsonResponse bodyReply)) ascending req world0 in
  (isStreamRequest preflight = true
   ∧ hasPathSegment (Path preflight) "stream" = true
   ∧ (run preflight).1 = Preflight
   ∧ written (writer (run preflight).2) = []
   ∧ head (writer (run preflight).2) = None)
  ∧ (hasPathSegment (Path stats) "stream" = false
     ∧ ReqHeader stats !! "Accept" = None
     ∧ (run stats).1 = StreamRelay
     ∧ written (writer (run stats).2) = [bodyReply]).
Proof. by vm_compute. Qed.

Lemma sample_relay_selection :
  (handleProxy JsonFragment.json configBadword "api.openai.com" id
     (answering (jsonResponse bodyReply)) ascending
     (request0 "POST" "/v1/stream/chat" ∅ (Some (Ok bodyHello))) world0).1
  = StreamRelay.
Proof.
  pose proof (relay_selection JsonFragment.json configBadword
                "api.openai.com" id (answering (jsonResponse bodyReply))
                ascending
                (request0 "POST" "/v1/stream/chat" ∅ (Some (Ok bodyHello)))
                world0) as Hrun.
  cbn zeta in Hrun. destruct Hrun as (_ & Hrelay & _).
  destruct Hrelay as (_ & Hstream & _); [intros err; discriminate |].
  rewrite Hstream; [done | discriminate | by vm_compute].
Defined.

Lemma sample_sentinel_recognition :
  streamLineLog JsonFragment.json "  [DONE] " = [LogStreamDone]
  ∧ streamLineLog JsonFragment.json "  data: [DONE] " = [LogStreamDone]
  ∧ streamLineLog JsonFragment.json "  data:[DONE] "
    = [LogStreamParseError SyntaxError]
  ∧ streamLineLog JsonFragment.json "data: data: [DONE]"
    = [LogStreamParseError SyntaxError].
Proof.
  destruct (sentinel_recognition_is_prefix_exact JsonFragment.json)
    as (_ & Hpadded & _).
  - by vm_compute.
  - destruct (Hpadded "  " " " eq_refl eq_refl)
      as (Hbare & Hdata & Hnospace & _).
    split_and!; [exact Hbare | exact Hdata | exact Hnospace |].
    by vm_compute.
Defined.

(** ** Properties across upstreams and enumeration orders *)

(** X12. An OPTIONS request, and a request whose body cannot be read,
    never reach the upstream: the handler's result and everything it
    logs and writes are the same whatever the upstream would answer. *)
Theorem no_dispatch_before_relay {float64 : Type} (json : codec float64)
    (config : Config) (host : string) (director : Request → Request)
    (RoundTrip1 RoundTrip2 : Request → result Response)
    (rangeOrder : nat → gmap string string → list (string * string))
    (req : Request) (w : World) :
  Method req = "OPTIONS" ∨ (∃ err, Body req = Some (Err err)) →
  handleProxy json config host director RoundTrip1 rangeOrder req w
  = handleProxy json config host director RoundTrip2 rangeOrder req w.
Proof.
  intros Hgate. unfold handleProxy, bind, Printf.
  cbn [fst snd logger writer].
  destruct (Body req) as [[data|err]|] eqn:Hbody; [| done |].
  - destruct Hgate as [Hmethod | [err Herr]]; [| done].
    destruct (modifyRequestBody _ _ _ data _) as [modifiedBody w1].
    cbn [ret fst snd Method]. rewrite Hmethod.
    by cbn [String.eqb Ascii.eqb Bool.eqb].
  - destruct Hgate as [Hmethod | [err Herr]]; [| done].
    cbn [ret fst snd]. rewrite Hmethod.
    by cbn [String.eqb Ascii.eqb Bool.eqb].
Qed.

(** X13. All the handler asks of the upstream is the answer to one
    request: the one the library makes of the Director's output for the
    inbound request with the rewritten body in place of its body and the
    length of that body as its content length.  Two transports that
    answer this request alike give the same run.  The request goes to the
    configured host, and with a default director that leaves the body
    alone it carries the rewritten body, or no body when that is empty. *)
Theorem upstream_sees_rewritten_request {float64 : Type}
    (json : codec float64) (config : Config) (host : string)
    (director : Request → Request) (clientIP : option string)
    (transport1 transport2 : Request → result Response)
    (rangeOrder : nat → gmap string string → list (string * string))
    (req : Request) (data : string) (w : World) :
  Body req = Some (Ok data) →
  let modifiedBody := (modifyRequestBody json config rangeOrder data w).1 in
  let forwarded :=
    {| Method := Method req; Path := Path req; Host := Host req;
       ReqHeader := ReqHeader req; Body := Some (Ok modifiedBody);
       ContentLength := Z.of_nat (String.length modifiedBody) |} in
  let sent :=
    Httputil.outbound clientIP forwarded
      (proxyDirector config host director req forwarded) in
  (∀ r, sent = Some r → transport1 r = transport2 r) →
  handleProxy json config host director
    (Httputil.sendUpstream clientIP transport1 forwarded) rangeOrder req w
  = handleProxy json config host director
      (Httputil.sendUpstream clientIP transport2 forwarded) rangeOrder req w
  ∧ ∀ r, sent = Some r →
         Host r = host
         ∧ (Body (director forwarded) = Body forwarded →
            Body r = if String.eqb modifiedBody "" then None
                     else Some (Ok modifiedBody)).
Proof.
  intros Hbody modifiedBody forwarded sent Hsame. split.
  - unfold handleProxy, bind, Printf. cbn [fst snd logger writer].
    rewrite Hbody.
    match goal with
    | |- context [modifyRequestBody json config rangeOrder data ?w0] =>
        pose proof (modifyRequestBody_value json config rangeOrder data w0 w)
          as Hvalue;
        destruct (modifyRequestBody json config rangeOrder data w0)
          as [modified w1]
    end.
    cbn [fst] in Hvalue. fold modifiedBody in Hvalue. subst modified.
    cbn [ret fst snd Method Path ReqHeader].
    destruct (String.eqb (Method req) "OPTIONS"); [done |].
    assert (Htrip :
              Httputil.sendUpstream clientIP transport1 forwarded
                (proxyDirector config host director req forwarded)
              = Httputil.sendUpstream clientIP transport2 forwarded
                  (proxyDirector config host director req forwarded)).
    { unfold Httputil.sendUpstream. fold sent.
      destruct sent as [r|] eqn:Hsent; [| done]. by rewrite (Hsame r). }
    match goal with
    | |- context [isStreamRequest ?r] => destruct (isStreamRequest r)
    end.
    + unfold handleStreamRequest, ServeHTTP, bind. cbn [Director].
      fold forwarded. by rewrite Htrip.
    + unfold handleNonStreamRequest, ServeHTTP, bind. cbn [Director].
      fold forwarded. by rewrite Htrip.
  - intros r Hsent. unfold sent, Httputil.outbound in Hsent.
    destruct (negb _); [done |]. apply (inj Some) in Hsent. subst r.
    cbn [Host Body proxyDirector ContentLength forwarded]. split; [done |].
    intros ->. cbn [Body forwarded].
    destruct modifiedBody as [|c rest]; [done |].
    cbn [String.length String.eqb]. by destruct (String.length rest).
Qed.

Lemma rangeMessages_ext {float64 : Type} (config : Config)
    (order1 order2 : nat → gmap string string → list (string * string))
    (todo messages : list (value float64)) (i : nat) (w : World) :
  (∀ j, order1 j (PromptModifications config)
        = order2 j (PromptModifications config)) →
  rangeMessages config order1 i todo messages w
  = rangeMessages config order2 i todo messages w.
Proof.
  intros Hsame. revert i messages w.
  induction todo as [|msg todo IH]; intros i messages w; [done |].
  cbn [rangeMessages]. unfold bind. rewrite Hsame.
  destruct msg as [| | | | |message]; try apply IH.
  destruct (message !! "content") as [[| | |content| |]|]; try apply IH.
  match goal with
  | |- (let (_, _) := ?run in _) = _ => destruct run as [messages' w']
  end.
  apply IH.
Qed.

Lemma modifyRequestBody_ext {float64 : Type} (json : codec float64)
    (config : Config)
    (order1 order2 : nat → gmap string string → list (string * string))
    (data : string) (w : World) :
  (∀ j, order1 j (PromptModifications config)
        = order2 j (PromptModifications config)) →
  modifyRequestBody json config order1 data w
  = modifyRequestBody json config order2 data w.
Proof.
  intros Hsame. unfold modifyRequestBody.
  destruct (Unmarshal json data) as [request|err]; [| done].
  unfold bind, rewriteRequest.
  destruct request as [fields|]; [| done]. cbn [index].
  destruct (fields !! "messages") as [[| | | |messages|]|]; try done.
  unfold bind. by rewrite (rangeMessages_ext config order1 order2).
Qed.

(** X14. With a table of at most one pair the rewriting does not depend
    on the order in which the map is met: any two enumerations give the
    same forwarded body and the same log. *)
Theorem small_table_rewrites_alike {float64 : Type} (json : codec float64)
    (config : Config)
    (order1 order2 : nat → gmap string string → list (string * string))
    (data : string) (w : World) :
  size (PromptModifications config) ≤ 1 →
  RangeOrder order1 →
  RangeOrder order2 →
  modifyRequestBody json config order1 data w
  = modifyRequestBody json config order2 data w.
Proof.
  intros Hsize Horder1 Horder2. apply modifyRequestBody_ext. intros j.
  specialize (Horder1 j (PromptModifications config)).
  specialize (Horder2 j (PromptModifications config)).
  rewrite <- length_map_to_list in Hsize.
  destruct (map_to_list (PromptModifications config)) as [|kr [|kr' rest]].
  - apply Permutation_nil_r in Horder1, Horder2. congruence.
  - apply Permutation_singleton_r in Horder1, Horder2. congruence.
  - simpl in Hsize. lia.
Qed.

(** ** The further properties on the sample inputs *)

Lemma sample_logResponse_strips_cors :
  (logResponse corsResponse world0).1 = Ok (jsonResponse bodyReply)
  ∧ RespHeader (jsonResponse bodyReply) !! "Access-Control-Allow-Origin" = None
  ∧ StatusCode (jsonResponse bodyReply) = StatusCode corsResponse.
Proof.
  assert (Hok : (logResponse corsResponse world0).1
                = Ok (jsonResponse bodyReply)) by (by vm_compute).
  destruct (logResponse_strips_only_cors corsResponse world0
              (jsonResponse bodyReply) Hok) as (Hcors & _ & Hcode & _).
  split_and!; [exact Hok | | exact Hcode].
  apply Hcors. by left.
Defined.

Lemma sample_original_prompt_logged :
  ∃ entries,
    logger (rewriteRequest configBadword ascending (Some fieldsBadword)
              world0).2
    = logger world0 ++ entries
    ∧ LogOriginalPrompt "hello BADWORD" ∈ entries.
Proof.
  destruct (modified_prompt_logged_only_when_changed configBadword ascending
              fieldsBadword [VMap messageBadword] world0)
    as (entries & Hlog & Horiginal & _).
  - by vm_compute.
  - exists entries. split; [exact Hlog |].
    apply (Horiginal 0 messageBadword); [reflexivity | by vm_compute].
Defined.

Lemma sample_capture :
  body (@copyBuffer _ responseBodyWriter_ResponseWriter
          {| body := ""; statusCode := 0 |} ["ab"; "c"] world0).1
  = String.concat ""
      (written (writer (@copyBuffer _ responseBodyWriter_ResponseWriter
                          {| body := ""; statusCode := 0 |} ["ab"; "c"]
                          world0).2)).
Proof.
  refine (proj1 (capture_keeps_step_with_client ["ab"; "c"]
                   {| body := ""; statusCode := 0 |} world0 StatusOK _)).
  reflexivity.
Defined.

Lemma sample_unreadable_body :
  (handleProxy JsonFragment.json configBadword "api.openai.com" id
     (answering (jsonResponse bodyReply)) ascending
     (request0 "POST" "/v1/chat/completions" ∅ (Some (Err ReadError)))
     world0).1
  = BodyUnreadable.
Proof.
  refine (proj1 (unreadable_body_answers_500 JsonFragment.json configBadword
                   "api.openai.com" id (answering (jsonResponse bodyReply))
                   ascending
                   (request0 "POST" "/v1/chat/completions" ∅
                      (Some (Err ReadError)))
                   ReadError world0 _)).
  reflexivity.
Defined.

Lemma sample_preflight :
  writer (handleProxy JsonFragment.json configBadword "api.openai.com" id
            (answering (jsonResponse bodyReply)) ascending
            (request0 "OPTIONS" "/v1/chat/completions" ∅
               (Some (Ok bodyHello)))
            world0).2
  = Gin.WriteHeader StatusOK (writer world0)
  ∧ logger (handleProxy JsonFragment.json configBadword "api.openai.com" id
              (answering (jsonResponse bodyReply)) ascending
              (request0 "OPTIONS" "/v1/chat/completions" ∅
                 (Some (Ok bodyHello)))
              world0).2
    = [LogReceived "OPTIONS" "/v1/chat/completions"; LogRequestHeader ∅;
       LogOriginalPrompt "hello";
       LogRequest "OPTIONS" "/v1/chat/completions" bodyHello].
Proof.
  destruct (preflight_records_200 JsonFragment.json configBadword
              "api.openai.com" id (answering (jsonResponse bodyReply))
              ascending
              (request0 "OPTIONS" "/v1/chat/completions" ∅
                 (Some (Ok bodyHello)))
              world0)
    as (_ & Hwriter & _ & _ & entries & Hlog & Hrewriter).
  - reflexivity.
  - intros err. discriminate.
  - split; [exact Hwriter |]. rewrite Hlog.
    specialize (Hrewriter world0). cbn [request0 Body] in Hrewriter.
    assert (entries = [LogOriginalPrompt "hello"]) as ->.
    { apply (f_equal logger) in Hrewriter. vm_compute in Hrewriter.
      congruence. }
    reflexivity.
Defined.

Lemma sample_stream_lines :
  ∃ logs,
    logger (@Write _ (streamResponseWriter_ResponseWriter JsonFragment.json)
              (chunk ["data: {}"; ""; "data: [DONE]"])
              StreamResponseWriter world0).2
    = concat logs
    ∧ length logs = 3
    ∧ logs !! 1 = Some [].
Proof.
  destruct (stream_write_logs_per_line JsonFragment.json
              (chunk ["data: {}"; ""; "data: [DONE]"]) world0)
    as (lines & logs & _ & _ & _ & Hunique & Hlog & Hlength & Hline).
  specialize (Hunique ["data: {}"; ""; "data: [DONE]"]).
  rewrite <- Hunique in * by done.
  exists logs. split_and!; [exact Hlog | exact Hlength |].
  destruct logs as [|l0 [|l1 logs]]; [done | done |].
  destruct (Hline 1 "" l1 eq_refl eq_refl) as (_ & Hblank & _).
  cbn [lookup list_lookup]. f_equal. by apply Hblank.
Defined.


Lemma sample_upstream_failure :
  status (writer (handleStreamRequest JsonFragment.json unreachable
                    streamRequest
                    {| Director := id; ModifyResponse := logResponse |}
                    world0).2)
  = StatusBadGateway
  ∧ written (writer (handleNonStreamRequest JsonFragment.json unreachable
                       chatRequest
                       {| Director := id; ModifyResponse := logResponse |}
                       world0).2)
    = written (writer world0) ++ [""].
Proof.
  destruct (upstream_failure_answers_502 JsonFragment.json unreachable
              streamRequest
              {| Director := id; ModifyResponse := logResponse |}
              ReadError world0) as (_ & _ & Hstatus & _);
    [reflexivity | reflexivity |].
  destruct (upstream_failure_answers_502 JsonFragment.json unreachable
              chatRequest
              {| Director := id; ModifyResponse := logResponse |}
              ReadError world0) as (_ & Hwritten & _);
    [reflexivity | reflexivity |].
  by split.
Defined.

Lemma sample_buffered_head :
  ∃ h,
    head (writer (handleNonStreamRequest JsonFragment.json
                    (answering (jsonResponse bodyReply)) chatRequest
                    {| Director := id; ModifyResponse := logResponse |}
                    world0).2)
    = Some (StatusCode (jsonResponse bodyReply), h)
    ∧ Get h "Content-Type"
      = Get (RespHeader (jsonResponse bodyReply)) "Content-Type".
Proof.
  apply (buffered_relay_sends_upstream_head JsonFragment.json
           (answering (jsonResponse bodyReply)) chatRequest
           {| Director := id; ModifyResponse := logResponse |}
           (jsonResponse bodyReply) world0);
    try reflexivity.
  by vm_compute.
Defined.

Lemma sample_no_dispatch :
  handleProxy JsonFragment.json configBadword "api.openai.com" id
    unreachable ascending
    (request0 "OPTIONS" "/v1/chat/completions" ∅ (Some (Ok bodyHello))) world0
  = handleProxy JsonFragment.json configBadword "api.openai.com" id
      (answering (jsonResponse bodyReply)) ascending
      (request0 "OPTIONS" "/v1/chat/completions" ∅ (Some (Ok bodyHello)))
      world0.
Proof.
  apply no_dispatch_before_relay. by left.
Defined.

Lemma sample_outbound_request :
  handleProxy JsonFragment.json configBadword "api.openai.com" id
    (Httputil.sendUpstream None (answering (jsonResponse bodyReply))
       (forwardedRequest JsonFragment.json configBadword ascending
          chatRequest world0).1)
    ascending chatRequest world0
  = handleProxy JsonFragment.json configBadword "api.openai.com" id
      (Httputil.sendUpstream None
         (answeringHost "api.openai.com" (jsonResponse bodyReply))
         (forwardedRequest JsonFragment.json configBadword ascending
            chatRequest world0).1)
      ascending chatRequest world0.
Proof.
  refine (proj1 (upstream_sees_rewritten_request JsonFragment.json
                   configBadword "api.openai.com" id None
                   (answering (jsonResponse bodyReply))
                   (answeringHost "api.openai.com" (jsonResponse bodyReply))
                   ascending chatRequest bodyHello world0 _ _)).
  - reflexivity.
  - intros r Hsent. vm_compute in Hsent. apply (inj Some) in Hsent.
    subst r. by vm_compute.
Defined.

Lemma sample_small_table :
  modifyRequestBody JsonFragment.json configBadword ascending bodyHello world0
  = modifyRequestBody JsonFragment.json configBadword descending bodyHello
      world0.
Proof.
  apply small_table_rewrites_alike.
  - vm_compute. lia.
  - apply RangeOrder_ascending.
  - apply RangeOrder_descending.
Defined.

Lemma sample_request_log :
  ∃ rewriting relaying,
    logger (handleProxy JsonFragment.json configBadword "api.openai.com" id
              (answering (jsonResponse bodyReply)) ascending chatRequest
              world0).2
    = logger world0
      ++ [LogReceived "POST" "/v1/chat/completions"; LogRequestHeader ∅]
      ++ rewriting
      ++ [LogRequest "POST" "/v1/chat/completions" bodyHello]
      ++ relaying.
Proof.
  destruct (request_logged_with_inbound_body JsonFragment.json configBadword
              "api.openai.com" id (answering (jsonResponse bodyReply))
              ascending chatRequest bodyHello world0)
    as (rewriting & relaying & Hlog & _).
  - reflexivity.
  - by exists rewriting, relaying.
Defined.

Lemma sample_unreadable_response :
  written (writer (handleNonStreamRequest JsonFragment.json
                     (answering brokenResponse) chatRequest
                     {| Director := id; ModifyResponse := logResponse |}
                     world0).2)
  = written (writer world0) ++ [""].
Proof.
  refine (proj2 (unreadable_response_answers_502 JsonFragment.json
                   (answering brokenResponse) chatRequest
                   {| Director := id; ModifyResponse := logResponse |}
                   brokenResponse ReadError world0 _ _ _ _ _));
    try reflexivity.
  by vm_compute.
Defined.
